(** * next-zod-route: the route handler builder and its request pipeline

    A shallow embedding of [src/routeHandlerBuilder.ts] and [src/types.ts].

    JavaScript objects used as maps are [gmap string _]; thrown values are an
    explicit error type; the calls the pipeline makes to its collaborators
    (body readers, schemas, middleware, the user handler, the custom error
    handler) are recorded in a trace, in the order in which they happen. *)

From Stdlib Require Import ZArith.
From stdpp Require Import gmap strings list fin_maps pretty sorting.

Open Scope string_scope.
Open Scope list_scope.
Set Warnings "-register-all".

(** ** Values *)

(** JSON-representable JavaScript values: what [request.json()] resolves to,
    what a schema parses and what [JSON.stringify] serialises to a string. *)
Inductive JsValue :=
| JNull
| JBool (b : bool)
| JNumber (n : Z)
| JString (s : string)
| JArray (l : list JsValue)
| JObject (m : gmap string JsValue).

(** [Record<string, unknown>]. *)
Abbreviation JsObject := (gmap string JsValue).

(** [Object.fromEntries(entries)]: entries are written in iteration order,
    so the last occurrence of a key is the one that remains. *)
Definition Object_fromEntries (entries : list (string * JsValue)) : JsObject :=
  foldl (fun o kv => <[kv.1 := kv.2]> o) ∅ entries.

(** Object spread [{ ...a, ...b }]: the own properties of [a], then those of
    [b] written over them. *)
Definition spread (a b : JsObject) : JsObject := b ∪ a.

(** [haystack.includes(needle)] on strings (case-sensitive). *)
Fixpoint includes (haystack needle : string) : bool :=
  String.prefix needle haystack
  || match haystack with
     | EmptyString => false
     | String _ rest => includes rest needle
     end.

(** ** Collaborators: the schema engine and the host framework *)

(** What [schema.safeParse(value)] returns: [{ success: true, data }] or
    [{ success: false, error: { issues } }]. *)
Inductive SafeParseResult :=
| ParseSuccess (data : JsValue)
| ParseFailure (issues : list JsValue).

Record Schema := { safeParse : JsValue -> SafeParseResult }.

(** What a [catch] clause can receive. [InternalRouteHandlerError] is the
    exported class of the source (line 18); every value for which
    [error instanceof InternalRouteHandlerError] is false is an [OtherError]. *)
Inductive Thrown :=
| InternalRouteHandlerError (message : string)
| OtherError (e : JsValue).

(** A call that either returns (a promise that resolves) or throws (a promise
    that rejects). *)
Inductive Completion (A : Type) :=
| Normal (a : A)
| Throw (error : Thrown).
Arguments Normal {A} a.
Arguments Throw {A} error.

(** [new Response(body, { status, headers })], with the headers of the init
    object as they were given. *)
Record Response := {
  resp_body : string;
  resp_status : Z;
  resp_headers : list (string * string)
}.

(** The part of a [Request] that the pipeline reads. *)
Record Request := {
  method : string;
  (** [request.headers.get(name)], [None] for [null] *)
  headers_get : string -> option string;
  (** [new URL(request.url).searchParams.entries()] *)
  searchParams : list (string * string);
  (** how [await request.formData()] completes, as [formData.entries()] *)
  formData : Completion (list (string * JsValue));
  (** how [await request.json()] completes *)
  json : Completion JsValue
}.

(** The second argument of the route: [{ params: Promise<Record<string, unknown>> }];
    [route_params] is [None] when [context.params] is missing. *)
Record RouteContext := {
  route_params : option (Completion JsObject)
}.

(** The second argument of the user handler: [{ params, query, body, data }]. *)
Record HandlerContext := {
  ctx_params : JsValue;
  ctx_query : JsValue;
  ctx_body : JsValue;
  ctx_data : JsObject
}.

(** [Middleware]: [({ request, context }) => Promise<TReturnType>], with
    [TReturnType = Record<string, unknown>]. *)
Definition Middleware := Request -> JsObject -> Completion JsObject.

(** What the user handler resolves to: a [Response] or a plain value. *)
Inductive HandlerReturn :=
| RetResponse (r : Response)
| RetValue (v : JsValue).

(** [HandlerFunction] of types.ts. *)
Definition HandlerFunction := Request -> HandlerContext -> Completion HandlerReturn.

(** [HandlerServerErrorFn] of types.ts: [(error: Error) => Response]. *)
Definition HandlerServerErrorFn := Thrown -> Response.

(** ** Effects: exceptions and the trace of calls *)

Inductive Slot := SlotParams | SlotQuery | SlotBody.

(** One entry per call that leaves the pipeline. *)
Inductive Event :=
| EvFormData
| EvJson
| EvSafeParse (slot : Slot) (value : JsValue)
| EvMiddleware (middleware : Middleware) (context : JsObject)
| EvHandler (ctx : HandlerContext)
| EvHandleServerError (error : Thrown).

(** A computation reads the trace so far and returns how it completed and the
    trace extended by the calls it made. *)
Definition M (A : Type) : Type := list Event -> Completion A * list Event.

Definition ret {A} (a : A) : M A := fun tr => (Normal a, tr).
Definition throw {A} (error : Thrown) : M A := fun tr => (Throw error, tr).
Definition bind {A B} (m : M A) (k : A -> M B) : M B :=
  fun tr =>
    match m tr with
    | (Normal a, tr') => k a tr'
    | (Throw error, tr') => (Throw error, tr')
    end.
Definition try_catch {A} (m : M A) (handle : Thrown -> M A) : M A :=
  fun tr =>
    match m tr with
    | (Normal a, tr') => (Normal a, tr')
    | (Throw error, tr') => handle error tr'
    end.
(** record a call, then complete as the callee did *)
Definition call {A} (ev : Event) (c : Completion A) : M A :=
  fun tr => (c, tr ++ [ev]).
(** [await p] for a promise that is already made *)
Definition await {A} (c : Completion A) : M A := fun tr => (c, tr).

#[global] Instance M_ret : MRet M := @ret.
#[global] Instance M_bind : MBind M := fun A B k m => bind m k.

Definition run {A} (m : M A) : Completion A * list Event := m [].

(** ** The builder's state *)

(** [this.config]; a slot without a schema holds [undefined]. *)
Record Config := {
  paramsSchema : option Schema;
  querySchema : option Schema;
  bodySchema : option Schema
}.

(** The fields of a [RouteHandlerBuilder] that exist at run time.
    [contextType] and [metadataValue] only carry types and are never read. *)
Record RouteHandlerBuilder := {
  config : Config;
  middlewares : list Middleware;
  handleServerError : option HandlerServerErrorFn
}.

(** ** Builder objects and the chaining methods (lines 38-111)

    A builder instance refers to its config object and to its middleware
    array; the three kinds of object live in a heap, so that "a new instance"
    and "the original is not changed" can be said. *)

Abbreviation loc := nat.

Inductive Obj :=
| ObjConfig (c : Config)
| ObjArray (a : list Middleware)
| ObjBuilder (config_ref middlewares_ref : loc)
             (handleServerError : option HandlerServerErrorFn).

Abbreviation Heap := (gmap loc Obj).

(** A new object gets a reference that the heap does not use yet. *)
Definition alloc (h : Heap) (o : Obj) : loc * Heap :=
  let l := fresh (dom h) in (l, <[l := o]> h).

(** The constructor (lines 38-61): [config] and [middlewares] default to a
    new empty config and a new empty array. *)
Definition new_RouteHandlerBuilder (h : Heap) (config middlewares : option loc)
    (handleServerError : option HandlerServerErrorFn) : loc * Heap :=
  let '(config, h) :=
    match config with
    | Some c => (c, h)
    | None => alloc h (ObjConfig {| paramsSchema := None; querySchema := None;
                                    bodySchema := None |})
    end in
  let '(middlewares, h) :=
    match middlewares with
    | Some m => (m, h)
    | None => alloc h (ObjArray [])
    end in
  alloc h (ObjBuilder config middlewares handleServerError).

(** [params(schema)] (lines 68-73). [None] when [this] is not a builder. *)
Definition params (h : Heap) (this : loc) (schema : Schema) : option (loc * Heap) :=
  match h !! this with
  | Some (ObjBuilder c m e) =>
      match h !! c with
      | Some (ObjConfig cfg) =>
          let '(c', h) :=
            alloc h (ObjConfig {| paramsSchema := Some schema;
                                  querySchema := querySchema cfg;
                                  bodySchema := bodySchema cfg |}) in
          Some (new_RouteHandlerBuilder h (Some c') (Some m) e)
      | _ => None
      end
  | _ => None
  end.

(** [query(schema)] (lines 80-85). *)
Definition query (h : Heap) (this : loc) (schema : Schema) : option (loc * Heap) :=
  match h !! this with
  | Some (ObjBuilder c m e) =>
      match h !! c with
      | Some (ObjConfig cfg) =>
          let '(c', h) :=
            alloc h (ObjConfig {| paramsSchema := paramsSchema cfg;
                                  querySchema := Some schema;
                                  bodySchema := bodySchema cfg |}) in
          Some (new_RouteHandlerBuilder h (Some c') (Some m) e)
      | _ => None
      end
  | _ => None
  end.

(** [body(schema)] (lines 92-97). *)
Definition body (h : Heap) (this : loc) (schema : Schema) : option (loc * Heap) :=
  match h !! this with
  | Some (ObjBuilder c m e) =>
      match h !! c with
      | Some (ObjConfig cfg) =>
          let '(c', h) :=
            alloc h (ObjConfig {| paramsSchema := paramsSchema cfg;
                                  querySchema := querySchema cfg;
                                  bodySchema := Some schema |}) in
          Some (new_RouteHandlerBuilder h (Some c') (Some m) e)
      | _ => None
      end
  | _ => None
  end.

(** [use(middleware)] (lines 104-111). *)
Definition use (h : Heap) (this : loc) (middleware : Middleware) : option (loc * Heap) :=
  match h !! this with
  | Some (ObjBuilder c m e) =>
      match h !! m with
      | Some (ObjArray a) =>
          let '(m', h) := alloc h (ObjArray (a ++ [middleware])) in
          Some (new_RouteHandlerBuilder h (Some c) (Some m') e)
      | _ => None
      end
  | _ => None
  end.

(** What a builder instance holds, read through its references: the
    [this.config], [this.middlewares] and [this.handleServerError] that the
    route of [handler] reads. *)
Definition load (h : Heap) (this : loc) : option RouteHandlerBuilder :=
  match h !! this with
  | Some (ObjBuilder c m e) =>
      match h !! c, h !! m with
      | Some (ObjConfig cfg), Some (ObjArray a) =>
          Some {| config := cfg; middlewares := a; handleServerError := e |}
      | _, _ => None
      end
  | _ => None
  end.

(** The reference of a builder's middleware array. *)
Definition middlewares_ref_of (h : Heap) (this : loc) : option loc :=
  match h !! this with
  | Some (ObjBuilder _ m _) => Some m
  | _ => None
  end.

(** ** The request pipeline: [handler] (lines 118-210) *)

Section Pipeline.

(** [JSON.stringify] on JSON-representable values. *)
Variable JSON_stringify : JsValue -> string.

(** The [for (const middleware of this.middlewares)] loop (lines 175-181). *)
Fixpoint run_middlewares (request : Request) (mws : list Middleware)
    (middlewareContext : JsObject) : M JsObject :=
  match mws with
  | [] => ret middlewareContext
  | middleware :: rest =>
      result ← call (EvMiddleware middleware middlewareContext)
                    (middleware request middlewareContext);
      run_middlewares request rest (spread middlewareContext result)
  end.

(** Line 122: [context?.params ? await context.params : {}]. *)
Definition read_params (context : option RouteContext) : Completion JsValue :=
  match context ≫= route_params with
  | Some p =>
      match p with
      | Normal o => Normal (JObject o)
      | Throw error => Throw error
      end
  | None => Normal (JObject ∅)
  end.

(** Line 123: [Object.fromEntries(url.searchParams.entries())]. *)
Definition read_query (request : Request) : JsValue :=
  JObject (Object_fromEntries
             (map (fun kv => (kv.1, JString kv.2)) (searchParams request))).

(** Lines 126-138: the body as it is before validation. *)
Definition read_body (request : Request) : M JsValue :=
  if negb (String.eqb (method request) "GET")
     && negb (String.eqb (method request) "DELETE")
  then
    let contentType := default EmptyString (headers_get request "content-type") in
    if includes contentType "multipart/form-data"
       || includes contentType "application/x-www-form-urlencoded"
    then
      formData ← call EvFormData (formData request);
      ret (JObject (Object_fromEntries formData))
    else
      call EvJson (json request)
  else ret (JObject ∅).

(** Lines 141-149. *)
Definition validate_params (self : RouteHandlerBuilder) (params : JsValue) : M JsValue :=
  match paramsSchema (config self) with
  | Some schema =>
      paramsResult ← call (EvSafeParse SlotParams params)
                          (Normal (safeParse schema params));
      match paramsResult with
      | ParseFailure issues =>
          throw (InternalRouteHandlerError
                   (JSON_stringify
                      (JObject {[ "message" := JString "Invalid params";
                                  "errors" := JArray issues ]})))
      | ParseSuccess data => ret data
      end
  | None => ret params
  end.

(** Lines 152-160. *)
Definition validate_query (self : RouteHandlerBuilder) (query : JsValue) : M JsValue :=
  match querySchema (config self) with
  | Some schema =>
      queryResult ← call (EvSafeParse SlotQuery query)
                         (Normal (safeParse schema query));
      match queryResult with
      | ParseFailure issues =>
          throw (InternalRouteHandlerError
                   (JSON_stringify
                      (JObject {[ "message" := JString "Invalid query";
                                  "errors" := JArray issues ]})))
      | ParseSuccess data => ret data
      end
  | None => ret query
  end.

(** Lines 163-171. *)
Definition validate_body (self : RouteHandlerBuilder) (body : JsValue) : M JsValue :=
  match bodySchema (config self) with
  | Some schema =>
      bodyResult ← call (EvSafeParse SlotBody body)
                        (Normal (safeParse schema body));
      match bodyResult with
      | ParseFailure issues =>
          throw (InternalRouteHandlerError
                   (JSON_stringify
                      (JObject {[ "message" := JString "Invalid body";
                                  "errors" := JArray issues ]})))
      | ParseSuccess data => ret data
      end
  | None => ret body
  end.

(** Lines 191-197: a [Response] is returned as it is, any other value is
    wrapped. *)
Definition to_response (result : HandlerReturn) : Response :=
  match result with
  | RetResponse r => r
  | RetValue v =>
      {| resp_body := JSON_stringify v; resp_status := 200;
         resp_headers := [("Content-Type", "application/json")] |}
  end.

(** The [try] block (lines 121-197). *)
Definition handler_try (self : RouteHandlerBuilder) (handler : HandlerFunction)
    (request : Request) (context : option RouteContext) : M Response :=
  params ← await (read_params context);
  let query := read_query request in
  body ← read_body request;
  params ← validate_params self params;
  query ← validate_query self query;
  body ← validate_body self body;
  middlewareContext ← run_middlewares request (middlewares self) ∅;
  let ctx := {| ctx_params := params; ctx_query := query;
                ctx_body := body; ctx_data := middlewareContext |} in
  result ← call (EvHandler ctx) (handler request ctx);
  ret (to_response result).

(** The [catch] block (lines 198-208). *)
Definition handler_catch (self : RouteHandlerBuilder) (error : Thrown) : M Response :=
  match error with
  | InternalRouteHandlerError message =>
      ret {| resp_body := message; resp_status := 400; resp_headers := [] |}
  | OtherError _ =>
      match handleServerError self with
      | Some handleServerError =>
          call (EvHandleServerError error) (Normal (handleServerError error))
      | None =>
          ret {| resp_body :=
                   JSON_stringify
                     (JObject {[ "message" := JString "Internal server error" ]});
                 resp_status := 500; resp_headers := [] |}
      end
  end.

(** [handler(handler)]: the route that Next.js calls. *)
Definition handler (self : RouteHandlerBuilder) (handler : HandlerFunction)
    (request : Request) (context : option RouteContext) : M Response :=
  try_catch (handler_try self handler request context) (handler_catch self).

End Pipeline.

(** ** What a run looks like

    The pipeline is a straight line with eight ways out. The definitions
    below describe a run of [handler] by the way it leaves the [try] block,
    so that the properties further down are case analyses over the ways
    out. *)

(** What validation makes of a slot: the schema's verdict if there is a
    schema, the value itself if there is none. *)
Definition parse_slot (schema : option Schema) (value : JsValue) : SafeParseResult :=
  match schema with
  | Some s => safeParse s value
  | None => ParseSuccess value
  end.

(** The call that validation of a slot makes. *)
Definition parse_events (slot : Slot) (schema : option Schema) (value : JsValue)
    : list Event :=
  match schema with
  | Some _ => [EvSafeParse slot value]
  | None => []
  end.

(** The schema configured for a slot. *)
Definition schema_of (slot : Slot) (cfg : Config) : option Schema :=
  match slot with
  | SlotParams => paramsSchema cfg
  | SlotQuery => querySchema cfg
  | SlotBody => bodySchema cfg
  end.

(** The message of a slot's validation error. *)
Definition slot_message (slot : Slot) : string :=
  match slot with
  | SlotParams => "Invalid params"
  | SlotQuery => "Invalid query"
  | SlotBody => "Invalid body"
  end.

(** A slot got through validation with [v'] in place of [v]: the parsed
    output of its schema, or [v] itself where no schema is configured. *)
Definition accepts (schema : option Schema) (v v' : JsValue) : Prop :=
  match schema with
  | Some s => safeParse s v = ParseSuccess v'
  | None => v' = v
  end.

(** The context that the fragments [frags] build, starting from [c]. *)
Definition merged_from (c : JsObject) (frags : list JsObject) : JsObject :=
  foldl spread c frags.

(** A run of the middleware loop from context [c]: how it completes and the
    calls it makes. *)
Inductive mw_run (request : Request)
    : list Middleware -> JsObject -> Completion JsObject -> list Event -> Prop :=
| mw_run_done c :
    mw_run request [] c (Normal c) []
| mw_run_step mw rest c r out evs :
    mw request c = Normal r ->
    mw_run request rest (spread c r) out evs ->
    mw_run request (mw :: rest) c out (EvMiddleware mw c :: evs)
| mw_run_throw mw rest c e :
    mw request c = Throw e ->
    mw_run request (mw :: rest) c (Throw e) [EvMiddleware mw c].

Section RunShapes.

Variable JSON_stringify : JsValue -> string.

(** The error that validation throws for a slot (lines 144-146, 155-157,
    166-168). *)
Definition validation_error (slot : Slot) (issues : list JsValue) : Thrown :=
  InternalRouteHandlerError
    (JSON_stringify
       (JObject {[ "message" := JString (slot_message slot);
                   "errors" := JArray issues ]})).

(** The default response to any other error. *)
Definition internal_server_error : Response :=
  {| resp_body :=
       JSON_stringify (JObject {[ "message" := JString "Internal server error" ]});
     resp_status := 500; resp_headers := [] |}.

(** Extraction and validation went through: the values that the middleware
    stage starts with, and the calls made so far. *)
Definition validated (self : RouteHandlerBuilder) (request : Request)
    (context : option RouteContext) (p' q' b' : JsValue) (tr : list Event) : Prop :=
  exists p b trb,
    read_params context = Normal p
    /\ read_body request [] = (Normal b, trb)
    /\ parse_slot (paramsSchema (config self)) p = ParseSuccess p'
    /\ parse_slot (querySchema (config self)) (read_query request) = ParseSuccess q'
    /\ parse_slot (bodySchema (config self)) b = ParseSuccess b'
    /\ tr = trb ++ parse_events SlotParams (paramsSchema (config self)) p
               ++ parse_events SlotQuery (querySchema (config self)) (read_query request)
               ++ parse_events SlotBody (bodySchema (config self)) b.

(** The eight ways out of the [try] block. *)
Inductive try_run (self : RouteHandlerBuilder) (handler : HandlerFunction)
    (request : Request) (context : option RouteContext)
    : Completion Response -> list Event -> Prop :=
| try_params_throw e :
    read_params context = Throw e ->
    try_run self handler request context (Throw e) []
| try_body_throw p e trb :
    read_params context = Normal p ->
    read_body request [] = (Throw e, trb) ->
    try_run self handler request context (Throw e) trb
| try_params_invalid p b trb issues :
    read_params context = Normal p ->
    read_body request [] = (Normal b, trb) ->
    parse_slot (paramsSchema (config self)) p = ParseFailure issues ->
    try_run self handler request context
      (Throw (validation_error SlotParams issues))
      (trb ++ [EvSafeParse SlotParams p])
| try_query_invalid p b trb p' issues :
    read_params context = Normal p ->
    read_body request [] = (Normal b, trb) ->
    parse_slot (paramsSchema (config self)) p = ParseSuccess p' ->
    parse_slot (querySchema (config self)) (read_query request) = ParseFailure issues ->
    try_run self handler request context
      (Throw (validation_error SlotQuery issues))
      (trb ++ parse_events SlotParams (paramsSchema (config self)) p
           ++ [EvSafeParse SlotQuery (read_query request)])
| try_body_invalid p b trb p' q' issues :
    read_params context = Normal p ->
    read_body request [] = (Normal b, trb) ->
    parse_slot (paramsSchema (config self)) p = ParseSuccess p' ->
    parse_slot (querySchema (config self)) (read_query request) = ParseSuccess q' ->
    parse_slot (bodySchema (config self)) b = ParseFailure issues ->
    try_run self handler request context
      (Throw (validation_error SlotBody issues))
      (trb ++ parse_events SlotParams (paramsSchema (config self)) p
           ++ parse_events SlotQuery (querySchema (config self)) (read_query request)
           ++ [EvSafeParse SlotBody b])
| try_middleware_throw p' q' b' tr e evs :
    validated self request context p' q' b' tr ->
    mw_run request (middlewares self) ∅ (Throw e) evs ->
    try_run self handler request context (Throw e) (tr ++ evs)
| try_handler_throw p' q' b' tr data evs e :
    validated self request context p' q' b' tr ->
    mw_run request (middlewares self) ∅ (Normal data) evs ->
    handler request {| ctx_params := p'; ctx_query := q'; ctx_body := b';
                       ctx_data := data |} = Throw e ->
    try_run self handler request context (Throw e)
      (tr ++ evs ++ [EvHandler {| ctx_params := p'; ctx_query := q';
                                  ctx_body := b'; ctx_data := data |}])
| try_handler_return p' q' b' tr data evs result :
    validated self request context p' q' b' tr ->
    mw_run request (middlewares self) ∅ (Normal data) evs ->
    handler request {| ctx_params := p'; ctx_query := q'; ctx_body := b';
                       ctx_data := data |} = Normal result ->
    try_run self handler request context (Normal (to_response JSON_stringify result))
      (tr ++ evs ++ [EvHandler {| ctx_params := p'; ctx_query := q';
                                  ctx_body := b'; ctx_data := data |}]).

(** What the [catch] block answers and which call it makes. *)
Definition catch_response (self : RouteHandlerBuilder) (error : Thrown) : Response :=
  match error with
  | InternalRouteHandlerError message =>
      {| resp_body := message; resp_status := 400; resp_headers := [] |}
  | OtherError _ =>
      match handleServerError self with
      | Some f => f error
      | None => internal_server_error
      end
  end.

Definition catch_events (self : RouteHandlerBuilder) (error : Thrown) : list Event :=
  match error, handleServerError self with
  | OtherError _, Some _ => [EvHandleServerError error]
  | _, _ => []
  end.

End RunShapes.

(** ** Stages of a run and chains of builder calls *)

(** The place of a slot in the order of validation. *)
Definition slot_rank (slot : Slot) : nat :=
  match slot with
  | SlotParams => 0
  | SlotQuery => 1
  | SlotBody => 2
  end.

(** The extracted value that the schema of a slot is given: the route
    params [p], the query object [q] or the body [b]. *)
Definition slot_value (slot : Slot) (p q b : JsValue) : JsValue :=
  match slot with
  | SlotParams => p
  | SlotQuery => q
  | SlotBody => b
  end.


(** The stage of the pipeline that makes a call: the body read, the three
    validations in their order, the middleware loop, the user handler, the
    [catch] block. *)
Definition stage (ev : Event) : nat :=
  match ev with
  | EvFormData | EvJson => 0
  | EvSafeParse SlotParams _ => 1
  | EvSafeParse SlotQuery _ => 2
  | EvSafeParse SlotBody _ => 3
  | EvMiddleware _ _ => 4
  | EvHandler _ => 5
  | EvHandleServerError _ => 6
  end.

(** [ev2] may come after [ev1]: it belongs to a later stage, or both are
    calls of the middleware loop. *)
Definition follows (ev1 ev2 : Event) : Prop :=
  stage ev1 < stage ev2 \/ (stage ev1 = 4 /\ stage ev2 = 4).

(** The middleware that a trace calls, in the order of the calls. *)
Definition called_middlewares (tr : list Event) : list Middleware :=
  omap (fun ev => match ev with
                  | EvMiddleware mw _ => Some mw
                  | _ => None
                  end) tr.

(** The reference of a builder's config object. *)
Definition config_ref_of (h : Heap) (this : loc) : option loc :=
  match h !! this with
  | Some (ObjBuilder c _ _) => Some c
  | _ => None
  end.

(** One chaining call. *)
Inductive Op :=
| OpParams (schema : Schema)
| OpQuery (schema : Schema)
| OpBody (schema : Schema)
| OpUse (middleware : Middleware).

Definition call_op (h : Heap) (this : loc) (op : Op) : option (loc * Heap) :=
  match op with
  | OpParams schema => params h this schema
  | OpQuery schema => query h this schema
  | OpBody schema => body h this schema
  | OpUse middleware => use h this middleware
  end.

(** A fluent chain [this.op1(..).op2(..)...]: each call is made on the
    builder that the call before it returned. *)
Fixpoint chain (h : Heap) (this : loc) (ops : list Op) : option (loc * Heap) :=
  match ops with
  | [] => Some (this, h)
  | op :: rest =>
      match call_op h this op with
      | Some (new, h') => chain h' new rest
      | None => None
      end
  end.

(** The schemas that a chain sets for a slot and the middleware it adds, in
    the order of the calls. *)
Definition params_of (ops : list Op) : list Schema :=
  omap (fun op => match op with OpParams s => Some s | _ => None end) ops.
Definition query_of (ops : list Op) : list Schema :=
  omap (fun op => match op with OpQuery s => Some s | _ => None end) ops.
Definition body_of (ops : list Op) : list Schema :=
  omap (fun op => match op with OpBody s => Some s | _ => None end) ops.
Definition use_of (ops : list Op) : list Middleware :=
  omap (fun op => match op with OpUse mw => Some mw | _ => None end) ops.

(** What a builder holds after one chaining call on a builder that holds
    [b]. *)
Definition apply_op (b : RouteHandlerBuilder) (op : Op) : RouteHandlerBuilder :=
  match op with
  | OpParams schema =>
      {| config := {| paramsSchema := Some schema;
                      querySchema := querySchema (config b);
                      bodySchema := bodySchema (config b) |};
         middlewares := middlewares b;
         handleServerError := handleServerError b |}
  | OpQuery schema =>
      {| config := {| paramsSchema := paramsSchema (config b);
                      querySchema := Some schema;
                      bodySchema := bodySchema (config b) |};
         middlewares := middlewares b;
         handleServerError := handleServerError b |}
  | OpBody schema =>
      {| config := {| paramsSchema := paramsSchema (config b);
                      querySchema := querySchema (config b);
                      bodySchema := Some schema |};
         middlewares := middlewares b;
         handleServerError := handleServerError b |}
  | OpUse middleware =>
      {| config := config b;
         middlewares := middlewares b ++ [middleware];
         handleServerError := handleServerError b |}
  end.

(** The last schema set, or the one that was there. *)
Definition last_or (old : option Schema) (set : list Schema) : option Schema :=
  match last set with
  | Some s => Some s
  | None => old
  end.

(** ** Sample routes

    Concrete schemas, requests, middleware and handlers, on which the
    pipeline runs by computation. *)

Definition dquote : string := String (Ascii.ascii_of_nat 34) EmptyString.

(** A serialiser to run the pipeline with: members in the order of the map,
    strings without escapes. *)
Fixpoint sample_stringify (v : JsValue) : string :=
  match v with
  | JNull => "null"
  | JBool b => if b then "true" else "false"
  | JNumber n => pretty n
  | JString s => dquote +:+ s +:+ dquote
  | JArray l => "[" +:+ String.concat "," (map sample_stringify l) +:+ "]"
  | JObject m =>
      "{" +:+ String.concat ","
                (map_fold (fun k v acc =>
                             acc ++ [dquote +:+ k +:+ dquote +:+ ":" +:+ sample_stringify v])
                          [] m)
          +:+ "}"
  end.

Definition sample_issue (code key : string) : JsValue :=
  JObject {[ "code" := JString code; "path" := JArray [JString key] ]}.

(** Like [z.object({ key: z.string().min(1) })]: an object whose [key] is a
    non-empty string, parsed to the object with that one key. *)
Definition required_string (key : string) : Schema :=
  {| safeParse := fun v =>
       match v with
       | JObject m =>
           match m !! key with
           | Some (JString s) =>
               if String.eqb s EmptyString
               then ParseFailure [sample_issue "too_small" key]
               else ParseSuccess (JObject {[ key := JString s ]})
           | _ => ParseFailure [sample_issue "invalid_type" key]
           end
       | _ => ParseFailure [sample_issue "invalid_type" EmptyString]
       end |}.

(** Like [z.object({ key: z.string().default(dflt) })]: a missing [key] is
    filled in. *)
Definition string_with_default (key dflt : string) : Schema :=
  {| safeParse := fun v =>
       match v with
       | JObject m =>
           match m !! key with
           | Some (JString s) => ParseSuccess (JObject {[ key := JString s ]})
           | None => ParseSuccess (JObject {[ key := JString dflt ]})
           | _ => ParseFailure [sample_issue "invalid_type" key]
           end
       | _ => ParseFailure [sample_issue "invalid_type" EmptyString]
       end |}.

(** A request with the given method, content type, query string and JSON
    payload; its form data is the one field [field=test-field]. *)
Definition sample_request (method : string) (contentType : option string)
    (search : list (string * string)) (payload : Completion JsValue) : Request :=
  {| method := method;
     headers_get := fun name =>
       if String.eqb name "content-type" then contentType else None;
     searchParams := search;
     formData := Normal [("field", JString "test-field")];
     json := payload |}.

(** [JSON.parse] failing on the payload. *)
Definition syntax_error : Thrown := OtherError (JString "SyntaxError").

Definition sample_route (p q b : option Schema) (mws : list Middleware)
    (onError : option HandlerServerErrorFn) : RouteHandlerBuilder :=
  {| config := {| paramsSchema := p; querySchema := q; bodySchema := b |};
     middlewares := mws; handleServerError := onError |}.

(** Returns its context as a plain value. *)
Definition echo_handler : HandlerFunction :=
  fun _ ctx =>
    Normal (RetValue (JObject {[ "params" := ctx_params ctx;
                                 "query" := ctx_query ctx;
                                 "body" := ctx_body ctx;
                                 "data" := JObject (ctx_data ctx) ]})).

(** Returns the validated body as a plain value. *)
Definition body_handler : HandlerFunction :=
  fun _ ctx => Normal (RetValue (ctx_body ctx)).

(** Returns a response of its own. *)
Definition created_handler : HandlerFunction :=
  fun _ _ =>
    Normal (RetResponse {| resp_body := "created"; resp_status := 201;
                           resp_headers := [("X-Custom-Header", "test")] |}).

Definition throwing_handler (e : Thrown) : HandlerFunction := fun _ _ => Throw e.

Definition mw_x1 : Middleware := fun _ _ => Normal {[ "x" := JNumber 1 ]}.
Definition mw_x2_y3 : Middleware :=
  fun _ _ => Normal {[ "x" := JNumber 2; "y" := JNumber 3 ]}.
Definition throwing_middleware (e : Thrown) : Middleware := fun _ _ => Throw e.

(** A custom error handler. *)
Definition unavailable : HandlerServerErrorFn :=
  fun _ => {| resp_body := "unavailable"; resp_status := 503; resp_headers := [] |}.

(** A heap with one builder, made by the constructor with its defaults. *)
Definition sample_heap : loc * Heap := new_RouteHandlerBuilder ∅ None None None.

(** * Facts about runs *)



Section Runs.

Variable JSON_stringify : JsValue -> string.

Lemma bind_eq {A B} (m : M A) (k : A -> M B) tr :
  (m ≫= k) tr =
  match m tr with
  | (Normal a, tr') => k a tr'
  | (Throw e, tr') => (Throw e, tr')
  end.
Proof. reflexivity. Qed.

Lemma validate_params_eq self p tr :
  validate_params JSON_stringify self p tr =
  (match parse_slot (paramsSchema (config self)) p with
   | ParseSuccess d => Normal d
   | ParseFailure issues => Throw (validation_error JSON_stringify SlotParams issues)
   end, tr ++ parse_events SlotParams (paramsSchema (config self)) p).
Proof.
  unfold validate_params, parse_slot, parse_events.
  destruct (paramsSchema (config self)) as [s|]; [|by rewrite app_nil_r].
  rewrite bind_eq. unfold call. by destruct (safeParse s p).
Qed.

Lemma validate_query_eq self q tr :
  validate_query JSON_stringify self q tr =
  (match parse_slot (querySchema (config self)) q with
   | ParseSuccess d => Normal d
   | ParseFailure issues => Throw (validation_error JSON_stringify SlotQuery issues)
   end, tr ++ parse_events SlotQuery (querySchema (config self)) q).
Proof.
  unfold validate_query, parse_slot, parse_events.
  destruct (querySchema (config self)) as [s|]; [|by rewrite app_nil_r].
  rewrite bind_eq. unfold call. by destruct (safeParse s q).
Qed.

Lemma validate_body_eq self b tr :
  validate_body JSON_stringify self b tr =
  (match parse_slot (bodySchema (config self)) b with
   | ParseSuccess d => Normal d
   | ParseFailure issues => Throw (validation_error JSON_stringify SlotBody issues)
   end, tr ++ parse_events SlotBody (bodySchema (config self)) b).
Proof.
  unfold validate_body, parse_slot, parse_events.
  destruct (bodySchema (config self)) as [s|]; [|by rewrite app_nil_r].
  rewrite bind_eq. unfold call. by destruct (safeParse s b).
Qed.

Lemma run_middlewares_mw_run request mws c tr :
  exists out evs,
    run_middlewares request mws c tr = (out, tr ++ evs)
    /\ mw_run request mws c out evs.
Proof.
  revert c tr. induction mws as [|mw rest IH]; intros c tr; simpl.
  - exists (Normal c), []. rewrite app_nil_r. split; [done|constructor].
  - rewrite bind_eq. unfold call.
    destruct (mw request c) as [r|e] eqn:Hmw.
    + destruct (IH (spread c r) (tr ++ [EvMiddleware mw c])) as (out & evs & Hrun & Hmw_run).
      exists out, (EvMiddleware mw c :: evs). split.
      * rewrite Hrun. by rewrite <- app_assoc.
      * by eapply mw_run_step.
    + exists (Throw e), [EvMiddleware mw c]. split; [done|].
      by apply mw_run_throw.
Qed.

Lemma mw_run_events request mws c out evs ev :
  mw_run request mws c out evs ->
  ev ∈ evs -> exists mw c', ev = EvMiddleware mw c'.
Proof.
  induction 1 as [c|mw rest c r out evs Hmw Hrun IH|mw rest c e Hmw]; intros Hin.
  - by apply elem_of_nil in Hin.
  - apply elem_of_cons in Hin as [->|Hin]; eauto.
  - apply list_elem_of_singleton in Hin as ->. eauto.
Qed.

(** A call that throws is the last call of the loop, and the loop throws what
    the call threw. *)
Lemma mw_run_throwing_call request mws c out evs mw c' e :
  mw_run request mws c out evs ->
  EvMiddleware mw c' ∈ evs ->
  mw request c' = Throw e ->
  out = Throw e /\ exists evs1, evs = evs1 ++ [EvMiddleware mw c'].
Proof.
  induction 1 as [c|mw0 rest c r out evs Hmw Hrun IH|mw0 rest c e0 Hmw];
    intros Hin Hthrow.
  - by apply elem_of_nil in Hin.
  - apply elem_of_cons in Hin as [Heq|Hin].
    + injection Heq as -> ->. congruence.
    + destruct (IH Hin Hthrow) as [-> [evs1 ->]].
      split; [done|]. by exists (EvMiddleware mw0 c :: evs1).
  - apply list_elem_of_singleton in Hin. injection Hin as -> ->.
    split; [congruence|]. by exists [].
Qed.

Lemma parse_events_failure slot schema v issues :
  parse_slot schema v = ParseFailure issues ->
  parse_events slot schema v = [EvSafeParse slot v].
Proof. by destruct schema. Qed.

Lemma handler_try_run self handler request context :
  exists out tr,
    handler_try JSON_stringify self handler request context [] = (out, tr)
    /\ try_run JSON_stringify self handler request context out tr.
Proof.
  unfold handler_try. rewrite bind_eq. unfold await.
  destruct (read_params context) as [p|e] eqn:Hp.
  2:{ eexists _, _. split; [done|]. by apply try_params_throw. }
  rewrite bind_eq.
  destruct (read_body request []) as [[b|e] trb] eqn:Hb.
  2:{ eexists _, _. split; [done|]. by eapply try_body_throw. }
  rewrite bind_eq, validate_params_eq.
  destruct (parse_slot (paramsSchema (config self)) p) as [p'|issues] eqn:HP.
  2:{ eexists _, _. split; [done|].
      rewrite (parse_events_failure _ _ _ _ HP). by eapply try_params_invalid. }
  rewrite bind_eq, validate_query_eq.
  destruct (parse_slot (querySchema (config self)) (read_query request))
    as [q'|issues] eqn:HQ.
  2:{ eexists _, _. split; [done|].
      rewrite (parse_events_failure _ _ _ _ HQ), <- app_assoc.
      by eapply try_query_invalid. }
  rewrite bind_eq, validate_body_eq.
  destruct (parse_slot (bodySchema (config self)) b) as [b'|issues] eqn:HB.
  2:{ eexists _, _. split; [done|].
      rewrite (parse_events_failure _ _ _ _ HB), <- !app_assoc.
      by eapply try_body_invalid. }
  rewrite <- !app_assoc.
  assert (validated self request context p' q' b'
            (trb ++ parse_events SlotParams (paramsSchema (config self)) p
                 ++ parse_events SlotQuery (querySchema (config self)) (read_query request)
                 ++ parse_events SlotBody (bodySchema (config self)) b)) as Hval.
  { by exists p, b, trb. }
  rewrite bind_eq.
  match goal with
  | |- context [run_middlewares ?r ?m ?c ?t] =>
      destruct (run_middlewares_mw_run r m c t) as (out & evs & -> & Hmw)
  end.
  destruct out as [data|e].
  2:{ eexists _, _. split; [done|]. by eapply try_middleware_throw. }
  rewrite bind_eq. unfold call.
  destruct (handler request _) as [result|e] eqn:Hh.
  - eexists _, _. split; [done|]. rewrite <- app_assoc.
    by eapply try_handler_return.
  - eexists _, _. split; [done|]. rewrite <- app_assoc.
    by eapply try_handler_throw.
Qed.

Lemma handler_catch_eq self error tr :
  handler_catch JSON_stringify self error tr =
  (Normal (catch_response JSON_stringify self error), tr ++ catch_events self error).
Proof.
  unfold handler_catch, catch_response, catch_events.
  destruct error; [by rewrite app_nil_r|].
  destruct (handleServerError self); [done|by rewrite app_nil_r].
Qed.

(** Every run of the route: a way out of the [try] block, then the [catch]
    block if that way out is a throw. The route itself never throws. *)
Lemma handler_run self handler0 request context :
  exists out tr,
    try_run JSON_stringify self handler0 request context out tr
    /\ run (handler JSON_stringify self handler0 request context) =
       match out with
       | Normal r => (Normal r, tr)
       | Throw e => (Normal (catch_response JSON_stringify self e),
                     tr ++ catch_events self e)
       end.
Proof.
  destruct (handler_try_run self handler0 request context) as (out & tr & Htry & Hrun).
  exists out, tr. split; [done|].
  unfold run, handler, try_catch. rewrite Htry.
  destruct out; [done|]. apply handler_catch_eq.
Qed.

(** *** Which calls a trace can hold *)

Lemma read_body_cases request out trb :
  read_body request [] = (out, trb) ->
  (trb = [] /\ out = Normal (JObject ∅))
  \/ (trb = [EvJson] /\ out = json request)
  \/ (trb = [EvFormData]
      /\ out = match formData request with
               | Normal entries => Normal (JObject (Object_fromEntries entries))
               | Throw e => Throw e
               end).
Proof.
  unfold read_body.
  destruct (negb _ && negb _); [|intros [= <- <-]; by left].
  destruct (includes _ _ || includes _ _).
  - rewrite bind_eq. unfold call.
    destruct (formData request); intros [= <- <-]; right; right; done.
  - unfold call. intros [= <- <-]. right; left; done.
Qed.

Lemma parse_events_in slot0 schema v0 ev :
  ev ∈ parse_events slot0 schema v0 ->
  ev = EvSafeParse slot0 v0
  /\ exists s, schema = Some s /\ parse_slot schema v0 = safeParse s v0.
Proof.
  destruct schema as [s|]; simpl; intros Hin.
  - apply list_elem_of_singleton in Hin. eauto.
  - by apply elem_of_nil in Hin.
Qed.

(** In a run that got through validation, the calls so far are the body
    read and the [safeParse] calls, and every [safeParse] call succeeded. *)
Lemma validated_in self request context p' q' b' tr ev :
  validated self request context p' q' b' tr ->
  ev ∈ tr ->
  ev = EvJson \/ ev = EvFormData
  \/ exists slot v s d,
       ev = EvSafeParse slot v
       /\ schema_of slot (config self) = Some s
       /\ safeParse s v = ParseSuccess d.
Proof.
  intros (p & b & trb & Hp & Hb & HP & HQ & HB & ->) Hin.
  rewrite !elem_of_app in Hin.
  destruct Hin as [Hin|[Hin|[Hin|Hin]]].
  - destruct (read_body_cases _ _ _ Hb) as [[-> _]|[[-> _]|[-> _]]].
    + by apply elem_of_nil in Hin.
    + apply list_elem_of_singleton in Hin. auto.
    + apply list_elem_of_singleton in Hin. auto.
  - apply parse_events_in in Hin as (-> & s & Hs & Heq).
    right; right. exists SlotParams, p, s, p'. by rewrite <- Heq.
  - apply parse_events_in in Hin as (-> & s & Hs & Heq).
    right; right. exists SlotQuery, (read_query request), s, q'. by rewrite <- Heq.
  - apply parse_events_in in Hin as (-> & s & Hs & Heq).
    right; right. exists SlotBody, b, s, b'. by rewrite <- Heq.
Qed.

Lemma catch_events_in self e ev :
  ev ∈ catch_events self e ->
  ev = EvHandleServerError e
  /\ (exists x, e = OtherError x) /\ is_Some (handleServerError self).
Proof.
  unfold catch_events. destruct e as [m|x].
  - intros Hin. by apply elem_of_nil in Hin.
  - destruct (handleServerError self) eqn:Hh.
    + intros Hin. apply list_elem_of_singleton in Hin. eauto.
    + intros Hin. by apply elem_of_nil in Hin.
Qed.

Lemma read_body_in request out trb ev :
  read_body request [] = (out, trb) ->
  ev ∈ trb ->
  (ev = EvJson /\ out = json request)
  \/ (ev = EvFormData
      /\ out = match formData request with
               | Normal entries => Normal (JObject (Object_fromEntries entries))
               | Throw e => Throw e
               end).
Proof.
  intros Hb Hin.
  destruct (read_body_cases _ _ _ Hb) as [[-> _]|[[-> ?]|[-> ?]]].
  - by apply elem_of_nil in Hin.
  - apply list_elem_of_singleton in Hin. auto.
  - apply list_elem_of_singleton in Hin. auto.
Qed.

Lemma mw_run_det request mws c out1 evs1 out2 evs2 :
  mw_run request mws c out1 evs1 ->
  mw_run request mws c out2 evs2 ->
  out1 = out2 /\ evs1 = evs2.
Proof.
  intros H1. revert out2 evs2.
  induction H1 as [c|mw rest c r out evs Hmw Hrun IH|mw rest c e Hmw];
    intros out2 evs2 H2; inversion H2; subst; try congruence; auto.
  - assert (r0 = r) as -> by congruence.
    destruct (IH _ _ ltac:(eassumption)) as [-> ->]. done.
  - split; congruence.
Qed.

Lemma run_middlewares_nil_mw_run request mws c :
  mw_run request mws c (run (run_middlewares request mws c)).1
                       (run (run_middlewares request mws c)).2.
Proof.
  unfold run.
  destruct (run_middlewares_mw_run request mws c []) as (out & evs & -> & H).
  done.
Qed.

Lemma accepts_parse_slot schema v v' :
  accepts schema v v' <-> parse_slot schema v = ParseSuccess v'.
Proof.
  destruct schema as [s|]; simpl; [done|]. split; congruence.
Qed.

Lemma read_body_skipped request tr :
  method request = "GET" \/ method request = "DELETE" ->
  read_body request tr = (Normal (JObject ∅), tr).
Proof.
  unfold read_body. intros [-> | ->]; reflexivity.
Qed.

End Runs.
(** Split a membership in a trace into memberships in its parts. *)
Ltac split_in H :=
  rewrite ?elem_of_app in H; destruct_or? H.

(** Say which call a member of one part of a trace is. *)
Ltac in_atom H :=
  first
    [ by apply elem_of_nil in H
    | apply list_elem_of_singleton in H
    | apply catch_events_in in H as (H & [? ?] & ?)
    | apply parse_events_in in H as (H & ? & ? & ?)
    | match goal with
      | Hv : validated _ _ _ _ _ _ ?tr |- _ =>
          match type of H with
          | _ ∈ tr =>
              apply (validated_in _ _ _ _ _ _ _ _ Hv) in H
                as [H|[H|(? & ? & ? & ? & H & ? & ?)]]
          end
      end
    | match goal with
      | Hm : mw_run _ _ _ _ ?evs |- _ =>
          match type of H with
          | _ ∈ evs => apply (mw_run_events _ _ _ _ _ _ Hm) in H as (? & ? & H)
          end
      end
    | match goal with
      | Hb : read_body _ [] = (_, ?trb) |- _ =>
          match type of H with
          | _ ∈ trb => apply (read_body_in _ _ _ _ Hb) in H as [[H ?]|[H ?]]
          end
      end ].

Ltac trace_in H := split_in H; in_atom H; simplify_eq.

(** Identify the right-hand sides of two equations about the same term. *)
Ltac unify_eqs :=
  repeat match goal with
         | H1 : ?x = ?a, H2 : ?x = ?b |- _ =>
             let E := fresh in
             assert (E : a = b) by congruence; clear H2; simplify_eq
         end.

(** Open the description of the stages before the middleware loop. *)
Ltac open_validated :=
  repeat match goal with
         | H : validated _ _ _ _ _ _ _ |- _ =>
             destruct H as (? & ? & ? & ? & ? & ? & ? & ? & ?)
         end.

Section TraceFacts.

Variable JSON_stringify : JsValue -> string.

(** The [try] block never calls the custom error handler. *)
Lemma try_run_no_error_handler self handler0 request context out tr e :
  try_run JSON_stringify self handler0 request context out tr ->
  EvHandleServerError e ∉ tr.
Proof.
  intros Htry Hin. destruct Htry; trace_in Hin.
Qed.

(** A body read that is in the trace and throws is what the [try] block
    throws. *)
Lemma try_run_body_read_in self handler0 request context out tr e :
  try_run JSON_stringify self handler0 request context out tr ->
  (EvJson ∈ tr /\ json request = Throw e)
  \/ (EvFormData ∈ tr /\ formData request = Throw e) ->
  out = Throw e.
Proof.
  intros Htry [[Hin He]|[Hin He]].
  all: destruct Htry; open_validated; simplify_eq; trace_in Hin.
  all: try rewrite He in *; congruence.
Qed.

(** A middleware call that is in the trace and throws is the last call of
    the [try] block, which throws what the call threw. *)
Lemma try_run_middleware_in self handler0 request context out tr mw c e :
  try_run JSON_stringify self handler0 request context out tr ->
  EvMiddleware mw c ∈ tr ->
  mw request c = Throw e ->
  out = Throw e /\ exists tr0, tr = tr0 ++ [EvMiddleware mw c].
Proof.
  intros Htry Hin He.
  destruct Htry; split_in Hin.
  all: try (in_atom Hin; simplify_eq; fail).
  all: match goal with
       | Hm : mw_run _ _ _ _ ?evs, Hi : _ ∈ ?evs |- _ =>
           destruct (mw_run_throwing_call _ _ _ _ _ _ _ _ Hm Hi He)
             as [? [evs1 ->]]; simplify_eq
       end.
  split; [done|]. exists (tr ++ evs1). by rewrite app_assoc.
Qed.

(** A user handler call that is in the trace is the last call of the [try]
    block, which completes as the call did. *)
Lemma try_run_handler_in self handler0 request context out tr hc :
  try_run JSON_stringify self handler0 request context out tr ->
  EvHandler hc ∈ tr ->
  (exists tr0, tr = tr0 ++ [EvHandler hc])
  /\ out = match handler0 request hc with
           | Normal result => Normal (to_response JSON_stringify result)
           | Throw e => Throw e
           end.
Proof.
  intros Htry Hin.
  destruct Htry; trace_in Hin.
  all: split; [eexists; by rewrite app_assoc|].
  all: match goal with
       | H : ?f _ _ = _ |- context [match ?f _ _ with _ => _ end] => by rewrite H
       end.
Qed.

(** The run of a request whose extraction went through and whose first
    rejecting slot is known. *)
Lemma first_rejection_run self handler0 request context p b trb :
  read_params context = Normal p ->
  read_body request [] = (Normal b, trb) ->
  let cfg := config self in
  let q := read_query request in
  let answer slot issues :=
    Normal {| resp_body :=
                JSON_stringify
                  (JObject {[ "message" := JString (slot_message slot);
                              "errors" := JArray issues ]});
              resp_status := 400; resp_headers := [] |} in
  (forall issues,
      parse_slot (paramsSchema cfg) p = ParseFailure issues ->
      run (handler JSON_stringify self handler0 request context) =
      (answer SlotParams issues, trb ++ [EvSafeParse SlotParams p]))
  /\ (forall p' issues,
        parse_slot (paramsSchema cfg) p = ParseSuccess p' ->
        parse_slot (querySchema cfg) q = ParseFailure issues ->
        run (handler JSON_stringify self handler0 request context) =
        (answer SlotQuery issues,
         trb ++ parse_events SlotParams (paramsSchema cfg) p
             ++ [EvSafeParse SlotQuery q]))
  /\ (forall p' q' issues,
        parse_slot (paramsSchema cfg) p = ParseSuccess p' ->
        parse_slot (querySchema cfg) q = ParseSuccess q' ->
        parse_slot (bodySchema cfg) b = ParseFailure issues ->
        run (handler JSON_stringify self handler0 request context) =
        (answer SlotBody issues,
         trb ++ parse_events SlotParams (paramsSchema cfg) p
             ++ parse_events SlotQuery (querySchema cfg) q
             ++ [EvSafeParse SlotBody b])).
Proof.
  intros Hp Hb cfg q answer. subst cfg q answer.
  destruct (handler_run JSON_stringify self handler0 request context)
    as (out & tr0 & Htry & ->).
  split_and!.
  - intros issues Hf.
    destruct Htry; open_validated; unify_eqs; try congruence.
    simpl. by rewrite app_nil_r.
  - intros p' issues HP Hf.
    destruct Htry; open_validated; unify_eqs; try congruence.
    simpl. by rewrite app_nil_r.
  - intros p' q' issues HP HQ Hf.
    destruct Htry; open_validated; unify_eqs; try congruence.
    simpl. by rewrite app_nil_r.
Qed.

End TraceFacts.

(** The middleware loop, run on middleware that return the fragments
    [frags]. *)
Lemma run_middlewares_fragments request mws frags c tr :
  length frags = length mws ->
  (forall i mw r, mws !! i = Some mw -> frags !! i = Some r ->
      mw request (merged_from c (take i frags)) = Normal r) ->
  run_middlewares request mws c tr =
  (Normal (merged_from c frags),
   tr ++ imap (fun i mw => EvMiddleware mw (merged_from c (take i frags))) mws).
Proof.
  revert frags c tr.
  induction mws as [|mw rest IH]; intros frags c tr Hlen Hfrags.
  - destruct frags; [|done]. simpl. by rewrite app_nil_r.
  - destruct frags as [|r frags']; [done|].
    simpl. rewrite bind_eq. unfold call.
    pose proof (Hfrags 0 mw r eq_refl eq_refl) as Hmw0. simpl in Hmw0.
    rewrite Hmw0.
    rewrite (IH frags' (spread c r)).
    + by rewrite <- app_assoc.
    + simpl in Hlen. lia.
    + intros i mw' r' Hmw Hr. exact (Hfrags (S i) mw' r' Hmw Hr).
Qed.

(** * Properties *)

Section Claims.

Variable JSON_stringify : JsValue -> string.

(** C2. A request whose validation fails: the route params have resolved,
    the body has been read, and the configured schema of some slot rejects
    the value extracted for that slot. The response is then 400 with the
    body [{ message: "Invalid <slot>", errors: <issues> }] of the first slot,
    in the order params, query, body, whose schema rejects; it is the slot
    at hand when the slots before it accept. The custom error handler is
    not called, and the run is the same run whatever error handler the
    builder has, or none. *)
Theorem validation_failure_response
    (self : RouteHandlerBuilder) (handler0 : HandlerFunction)
    (request : Request) (context : option RouteContext)
    (p b : JsValue) (trb : list Event)
    (slot : Slot) (schema : Schema) (issues : list JsValue) :
  read_params context = Normal p ->
  read_body request [] = (Normal b, trb) ->
  let cfg := config self in
  let value s := slot_value s p (read_query request) b in
  schema_of slot cfg = Some schema ->
  safeParse schema (value slot) = ParseFailure issues ->
  let r := run (handler JSON_stringify self handler0 request context) in
  exists slot' schema' issues',
    slot_rank slot' <= slot_rank slot
    /\ schema_of slot' cfg = Some schema'
    /\ safeParse schema' (value slot') = ParseFailure issues'
    /\ (forall s, slot_rank s < slot_rank slot' ->
          exists v', accepts (schema_of s cfg) (value s) v')
    /\ ((forall s, slot_rank s < slot_rank slot ->
           exists v', accepts (schema_of s cfg) (value s) v') ->
        slot' = slot /\ issues' = issues)
    /\ r.1 = Normal {| resp_body :=
                         JSON_stringify
                           (JObject {[ "message" := JString (slot_message slot');
                                       "errors" := JArray issues' ]});
                       resp_status := 400; resp_headers := [] |}
    /\ (forall e, EvHandleServerError e ∉ r.2)
    /\ forall other : option HandlerServerErrorFn,
         run (handler JSON_stringify
                {| config := cfg; middlewares := middlewares self;
                   handleServerError := other |}
                handler0 request context) = r.
Proof.
  intros Hp Hb cfg value Hs Hf r. subst cfg value r.
  assert (exists slot' schema' issues' tr',
             slot_rank slot' <= slot_rank slot
             /\ schema_of slot' (config self) = Some schema'
             /\ safeParse schema' (slot_value slot' p (read_query request) b)
                = ParseFailure issues'
             /\ (forall s, slot_rank s < slot_rank slot' ->
                   exists v', accepts (schema_of s (config self))
                                (slot_value s p (read_query request) b) v')
             /\ (forall e, EvHandleServerError e ∉ tr')
             /\ forall self',
                  config self' = config self ->
                  run (handler JSON_stringify self' handler0 request context) =
                  (Normal {| resp_body :=
                               JSON_stringify
                                 (JObject {[ "message" := JString (slot_message slot');
                                             "errors" := JArray issues' ]});
                             resp_status := 400; resp_headers := [] |}, tr'))
    as (slot' & schema' & issues' & tr' & Hrank & Hs' & Hf' & Hacc & Hnone & Hrun).
  { destruct (parse_slot (paramsSchema (config self)) p) as [p'|isP] eqn:HP.
    - destruct (parse_slot (querySchema (config self)) (read_query request))
        as [q'|isQ] eqn:HQ.
      + destruct (parse_slot (bodySchema (config self)) b) as [b'|isB] eqn:HB.
        * exfalso. destruct slot; simpl in Hs, Hf; rewrite Hs in *; simpl in *;
            congruence.
        * destruct (bodySchema (config self)) as [s'|] eqn:Hs'; [|discriminate HB].
          exists SlotBody, s', isB. eexists. split_and!.
          -- destruct slot; simpl in *; try lia; rewrite Hs in *; simpl in *;
               congruence.
          -- done.
          -- done.
          -- intros s Hlt. destruct s; simpl in Hlt; try lia; eexists;
               apply accepts_parse_slot; eassumption.
          -- shelve.
          -- intros self' Hcfg.
             pose proof (first_rejection_run JSON_stringify self' handler0 request
                           context p b trb Hp Hb) as (_ & _ & RB).
             rewrite Hcfg, Hs' in RB. exact (RB p' q' isB HP HQ HB).
      + destruct (querySchema (config self)) as [s'|] eqn:Hs'; [|discriminate HQ].
        exists SlotQuery, s', isQ. eexists. split_and!.
        * destruct slot; simpl in *; try lia; rewrite Hs in *; simpl in *;
            congruence.
        * done.
        * done.
        * intros s Hlt. destruct s; simpl in Hlt; try lia; eexists;
            apply accepts_parse_slot; eassumption.
        * shelve.
        * intros self' Hcfg.
          pose proof (first_rejection_run JSON_stringify self' handler0 request
                        context p b trb Hp Hb) as (_ & RQ & _).
          rewrite Hcfg, Hs' in RQ. exact (RQ p' isQ HP HQ).
    - destruct (paramsSchema (config self)) as [s'|] eqn:Hs'; [|discriminate HP].
      exists SlotParams, s', isP. eexists. split_and!.
      + simpl. lia.
      + done.
      + done.
      + intros s Hlt. simpl in Hlt. lia.
      + shelve.
      + intros self' Hcfg.
        pose proof (first_rejection_run JSON_stringify self' handler0 request
                      context p b trb Hp Hb) as (RP & _ & _).
        rewrite Hcfg, Hs' in RP. exact (RP isP HP).
    Unshelve.
    all: intros e Hin; trace_in Hin. }
  exists slot', schema', issues'.
  rewrite (Hrun self eq_refl). simpl.
  split_and!; try done.
  - intros Hall.
    assert (slot' = slot) as ->.
    { destruct (decide (slot_rank slot' = slot_rank slot)) as [Heq|Hne].
      - destruct slot', slot; simpl in Heq; congruence.
      - destruct (Hall slot') as [v' Hv']; [lia|].
        apply accepts_parse_slot in Hv'. rewrite Hs' in Hv'. simpl in Hv'.
        congruence. }
    split; [done|]. congruence.
  - intros other. by apply Hrun.
Qed.

(** C1, as the code has it. Extraction comes first; once the route params
    have resolved and the body has been read, validation runs in the order
    params, query, body, each slot only if it has a schema. The first slot
    whose schema rejects ends the run: the response is 400 with that slot's
    message and issues, and the trace shows that no later [safeParse], no
    middleware, no user handler and no custom error handler was called. In
    particular a rejected params value gives "Invalid params" whatever the
    query and the body are. *)
Theorem validation_order_and_abort
    (self : RouteHandlerBuilder) (handler0 : HandlerFunction)
    (request : Request) (context : option RouteContext)
    (p b : JsValue) (trb : list Event) :
  read_params context = Normal p ->
  read_body request [] = (Normal b, trb) ->
  let cfg := config self in
  let q := read_query request in
  let answer slot issues :=
    {| resp_body :=
         JSON_stringify
           (JObject {[ "message" := JString (slot_message slot);
                       "errors" := JArray issues ]});
       resp_status := 400; resp_headers := [] |} in
  (forall schema issues,
      paramsSchema cfg = Some schema ->
      safeParse schema p = ParseFailure issues ->
      run (handler JSON_stringify self handler0 request context) =
      (Normal (answer SlotParams issues), trb ++ [EvSafeParse SlotParams p]))
  /\ (forall p' schema issues,
        accepts (paramsSchema cfg) p p' ->
        querySchema cfg = Some schema ->
        safeParse schema q = ParseFailure issues ->
        run (handler JSON_stringify self handler0 request context) =
        (Normal (answer SlotQuery issues),
         trb ++ parse_events SlotParams (paramsSchema cfg) p
             ++ [EvSafeParse SlotQuery q]))
  /\ (forall p' q' schema issues,
        accepts (paramsSchema cfg) p p' ->
        accepts (querySchema cfg) q q' ->
        bodySchema cfg = Some schema ->
        safeParse schema b = ParseFailure issues ->
        run (handler JSON_stringify self handler0 request context) =
        (Normal (answer SlotBody issues),
         trb ++ parse_events SlotParams (paramsSchema cfg) p
             ++ parse_events SlotQuery (querySchema cfg) q
             ++ [EvSafeParse SlotBody b])).
Proof.
  intros Hp Hb cfg q answer. subst cfg q answer.
  destruct (handler_run JSON_stringify self handler0 request context)
    as (out & tr0 & Htry & ->).
  split_and!.
  - intros schema issues Hs Hf.
    assert (parse_slot (paramsSchema (config self)) p = ParseFailure issues)
      by (by rewrite Hs).
    destruct Htry; open_validated; unify_eqs; try congruence.
    simpl. by rewrite app_nil_r.
  - intros p' schema issues HP%accepts_parse_slot Hs Hf.
    assert (parse_slot (querySchema (config self)) (read_query request)
            = ParseFailure issues) by (by rewrite Hs).
    destruct Htry; open_validated; unify_eqs; try congruence.
    simpl. by rewrite app_nil_r.
  - intros p' q' schema issues HP%accepts_parse_slot HQ%accepts_parse_slot Hs Hf.
    assert (parse_slot (bodySchema (config self)) b = ParseFailure issues)
      by (by rewrite Hs).
    destruct Htry; open_validated; unify_eqs; try congruence.
    simpl. by rewrite app_nil_r.
Qed.

(** C4. When the route params resolve, the body is read and every configured
    schema accepts its value, each user handler call receives, for each slot,
    the parsed output of the slot's schema, or the extracted value itself
    where the slot has no schema ([accepts] says which); and the user handler
    is called with these values as soon as the middleware loop completes. *)
Theorem handler_receives_parsed_values
    (self : RouteHandlerBuilder) (handler0 : HandlerFunction)
    (request : Request) (context : option RouteContext)
    (p b p' q' b' : JsValue) (trb : list Event) :
  read_params context = Normal p ->
  read_body request [] = (Normal b, trb) ->
  accepts (paramsSchema (config self)) p p' ->
  accepts (querySchema (config self)) (read_query request) q' ->
  accepts (bodySchema (config self)) b b' ->
  let tr := (run (handler JSON_stringify self handler0 request context)).2 in
  (forall hc, EvHandler hc ∈ tr ->
      ctx_params hc = p' /\ ctx_query hc = q' /\ ctx_body hc = b')
  /\ (forall data,
        (run (run_middlewares request (middlewares self) ∅)).1 = Normal data ->
        EvHandler {| ctx_params := p'; ctx_query := q'; ctx_body := b';
                     ctx_data := data |} ∈ tr).
Proof.
  intros Hp Hb HP%accepts_parse_slot HQ%accepts_parse_slot HB%accepts_parse_slot tr.
  subst tr.
  destruct (handler_run JSON_stringify self handler0 request context)
    as (out & tr0 & Htry & ->).
  split.
  - intros hc Hin.
    destruct Htry; open_validated; unify_eqs; try congruence; simpl in Hin.
    all: trace_in Hin; done.
  - intros data Hdata.
    destruct Htry; open_validated; unify_eqs; try congruence; simpl.
    all: match goal with
         | H : mw_run _ _ _ _ _ |- _ =>
             destruct (mw_run_det _ _ _ _ _ _ _
                         (run_middlewares_nil_mw_run request (middlewares self) ∅) H)
               as [E1 E2];
             rewrite Hdata in E1; simplify_eq
         end.
    all: rewrite !elem_of_app, !list_elem_of_singleton; naive_solver.
Qed.

(** C7. When the user handler returns, its value decides the response: a
    [Response] is returned as it is, with its own status and headers; any
    other value is serialised with [JSON.stringify] into a response with
    status 200 and the header [Content-Type: application/json]. *)
Theorem response_normalization
    (self : RouteHandlerBuilder) (handler0 : HandlerFunction)
    (request : Request) (context : option RouteContext) (hc : HandlerContext) :
  EvHandler hc ∈ (run (handler JSON_stringify self handler0 request context)).2 ->
  (forall r, handler0 request hc = Normal (RetResponse r) ->
      (run (handler JSON_stringify self handler0 request context)).1 = Normal r)
  /\ (forall v, handler0 request hc = Normal (RetValue v) ->
        (run (handler JSON_stringify self handler0 request context)).1 =
        Normal {| resp_body := JSON_stringify v; resp_status := 200;
                  resp_headers := [("Content-Type", "application/json")] |}).
Proof.
  destruct (handler_run JSON_stringify self handler0 request context)
    as (out & tr0 & Htry & ->).
  intros Hin.
  destruct Htry; simpl in Hin; trace_in Hin.
  all: split; intros ? Hret; simpl; try congruence.
  all: rewrite Hret in *; by simplify_eq.
Qed.

(** C3, as the code has it. When a body read, a middleware or the user
    handler throws a value that is not an [InternalRouteHandlerError]: with a
    custom error handler configured, that handler is called once, last, with
    the thrown value, and its response is the response of the route; with
    none configured, the response is 500 with the body
    [{ message: "Internal server error" }], which holds nothing of the
    thrown value. *)
Theorem other_errors_go_to_error_handler
    (self : RouteHandlerBuilder) (handler0 : HandlerFunction)
    (request : Request) (context : option RouteContext) (x : JsValue) :
  let r := run (handler JSON_stringify self handler0 request context) in
  let e := OtherError x in
  (EvJson ∈ r.2 /\ json request = Throw e)
  \/ (EvFormData ∈ r.2 /\ formData request = Throw e)
  \/ (exists mw c, EvMiddleware mw c ∈ r.2 /\ mw request c = Throw e)
  \/ (exists hc, EvHandler hc ∈ r.2 /\ handler0 request hc = Throw e) ->
  match handleServerError self with
  | Some f =>
      r.1 = Normal (f e)
      /\ exists tr0, r.2 = tr0 ++ [EvHandleServerError e]
                     /\ forall e', EvHandleServerError e' ∉ tr0
  | None =>
      r.1 = Normal {| resp_body :=
                        JSON_stringify
                          (JObject {[ "message" := JString "Internal server error" ]});
                      resp_status := 500; resp_headers := [] |}
      /\ forall e', EvHandleServerError e' ∉ r.2
  end.
Proof.
  intros r e Hsrc. subst r.
  destruct (handler_run JSON_stringify self handler0 request context)
    as (out & tr & Htry & Heq).
  rewrite Heq in *. clear Heq.
  assert (forall ev, (forall e', ev <> EvHandleServerError e') ->
            ev ∈ (match out with
                  | Normal r0 => (Normal r0, tr)
                  | Throw e0 => (Normal (catch_response JSON_stringify self e0),
                                 tr ++ catch_events self e0)
                  end).2 -> ev ∈ tr) as Htr.
  { intros ev Hev Hin. destruct out as [r0|e0]; [done|]. simpl in Hin.
    apply elem_of_app in Hin as [Hin|Hin]; [done|].
    apply catch_events_in in Hin as [-> _]. by destruct (Hev e0). }
  assert (out = Throw e) as ->.
  { destruct Hsrc as [[Hin He]|[[Hin He]|[(mw & c & Hin & He)|(hc & Hin & He)]]].
    - apply Htr in Hin; [|done].
      eapply try_run_body_read_in; [done|]. by left.
    - apply Htr in Hin; [|done].
      eapply try_run_body_read_in; [done|]. by right.
    - apply Htr in Hin; [|done].
      by destruct (try_run_middleware_in _ _ _ _ _ _ _ _ _ _ Htry Hin He).
    - apply Htr in Hin; [|done].
      destruct (try_run_handler_in _ _ _ _ _ _ _ _ Htry Hin) as [_ ->].
      by rewrite He. }
  simpl. unfold catch_events. subst e. simpl.
  destruct (handleServerError self) as [f|].
  - split; [done|]. exists tr. split; [done|].
    intros e'. by eapply try_run_no_error_handler.
  - split; [done|]. intros e'. rewrite app_nil_r.
    by eapply try_run_no_error_handler.
Qed.

(** C9, as the code has it. When a middleware throws, the run is over: the
    throwing call is the last call of the pipeline but for the custom error
    handler, so no later middleware runs and the user handler is never
    called, with a partial context or any other. A thrown value that is not
    an [InternalRouteHandlerError] gets the generic handling, the custom
    error handler's response or the default 500; a thrown
    [InternalRouteHandlerError] is answered like a validation error, with
    400 and its message as the body. *)
Theorem middleware_exception_aborts
    (self : RouteHandlerBuilder) (handler0 : HandlerFunction)
    (request : Request) (context : option RouteContext)
    (mw : Middleware) (c : JsObject) (e : Thrown) :
  let r := run (handler JSON_stringify self handler0 request context) in
  EvMiddleware mw c ∈ r.2 ->
  mw request c = Throw e ->
  (forall hc, EvHandler hc ∉ r.2)
  /\ (exists tr0, r.2 = tr0 ++ [EvMiddleware mw c]
                  \/ r.2 = tr0 ++ [EvMiddleware mw c; EvHandleServerError e])
  /\ match e with
     | OtherError _ =>
         r.1 = Normal
                 match handleServerError self with
                 | Some f => f e
                 | None =>
                     {| resp_body :=
                          JSON_stringify
                            (JObject {[ "message" := JString "Internal server error" ]});
                        resp_status := 500; resp_headers := [] |}
                 end
     | InternalRouteHandlerError message =>
         r.1 = Normal {| resp_body := message; resp_status := 400;
                         resp_headers := [] |}
     end.
Proof.
  intros r Hin He. subst r.
  destruct (handler_run JSON_stringify self handler0 request context)
    as (out & tr & Htry & Heq).
  rewrite Heq in *. clear Heq.
  assert (EvMiddleware mw c ∈ tr) as Hin_tr.
  { destruct out as [r0|e0]; [done|]. simpl in Hin.
    apply elem_of_app in Hin as [Hin|Hin]; [done|].
    by apply catch_events_in in Hin as [? _]. }
  destruct (try_run_middleware_in _ _ _ _ _ _ _ _ _ _ Htry Hin_tr He)
    as [-> [tr0 ->]].
  simpl. split_and!.
  - intros hc Hhc. apply elem_of_app in Hhc as [Hhc|Hhc].
    + destruct (try_run_handler_in _ _ _ _ _ _ _ _ Htry Hhc) as [[tr1 Htr1] _].
      by apply app_inj_tail in Htr1 as [_ ?].
    + by apply catch_events_in in Hhc as [? _].
  - exists tr0. unfold catch_events.
    destruct e; [left; by rewrite app_nil_r|].
    destruct (handleServerError self); [right|left].
    + by rewrite <- app_assoc.
    + by rewrite app_nil_r.
  - by destruct e.
Qed.

(** C10, as the code has it. For a GET or DELETE request the body before
    validation is the empty object, whatever the payload: it is the value
    that a configured body schema is given, and the user handler receives it
    where no body schema is configured and the schema's parsed output for it
    where one is. If the configured body schema rejects the empty object,
    every such request whose route params resolve and whose params and query
    get through validation is answered 400 "Invalid body", without any body
    read. *)
Theorem get_delete_body_is_empty
    (self : RouteHandlerBuilder) (handler0 : HandlerFunction)
    (request : Request) (context : option RouteContext) :
  method request = "GET" \/ method request = "DELETE" ->
  let r := run (handler JSON_stringify self handler0 request context) in
  (forall v, EvSafeParse SlotBody v ∈ r.2 -> v = JObject ∅)
  /\ (forall hc, EvHandler hc ∈ r.2 ->
        accepts (bodySchema (config self)) (JObject ∅) (ctx_body hc))
  /\ (forall schema issues p p' q',
        bodySchema (config self) = Some schema ->
        safeParse schema (JObject ∅) = ParseFailure issues ->
        read_params context = Normal p ->
        accepts (paramsSchema (config self)) p p' ->
        accepts (querySchema (config self)) (read_query request) q' ->
        r = (Normal {| resp_body :=
                         JSON_stringify
                           (JObject {[ "message" := JString "Invalid body";
                                       "errors" := JArray issues ]});
                       resp_status := 400; resp_headers := [] |},
             parse_events SlotParams (paramsSchema (config self)) p
               ++ parse_events SlotQuery (querySchema (config self)) (read_query request)
               ++ [EvSafeParse SlotBody (JObject ∅)])).
Proof.
  intros Hmethod r. subst r.
  pose proof (read_body_skipped request [] Hmethod) as Hb.
  destruct (handler_run JSON_stringify self handler0 request context)
    as (out & tr & Htry & ->).
  split_and!.
  - intros v Hin.
    destruct Htry; open_validated; unify_eqs; simpl in Hin; trace_in Hin; done.
  - intros hc Hin. apply accepts_parse_slot.
    destruct Htry; open_validated; unify_eqs; simpl in Hin; trace_in Hin; done.
  - intros schema issues p p' q' Hs Hf Hp HP%accepts_parse_slot HQ%accepts_parse_slot.
    assert (parse_slot (bodySchema (config self)) (JObject ∅) = ParseFailure issues)
      by (by rewrite Hs).
    destruct Htry; open_validated; unify_eqs; try congruence.
    simpl. by rewrite app_nil_r.
Qed.


End Claims.


(** ** Builder objects *)

Lemma alloc_spec (h : Heap) (o : Obj) (l : loc) (h' : Heap) :
  alloc h o = (l, h') ->
  h !! l = None /\ h' !! l = Some o /\ h ⊆ h'.
Proof.
  unfold alloc. intros [= <- <-].
  assert (h !! fresh (dom h) = None) as Hfresh.
  { apply not_elem_of_dom. apply is_fresh. }
  split_and!; [done|by rewrite lookup_insert_eq|by apply insert_subseteq].
Qed.

Lemma load_mono (h h' : Heap) (this : loc) (b : RouteHandlerBuilder) :
  h ⊆ h' -> load h this = Some b -> load h' this = Some b.
Proof.
  unfold load. intros Hsub Hload.
  destruct (h !! this) as [[| |c m e]|] eqn:Hthis; try done.
  destruct (h !! c) as [[cfg| |]|] eqn:Hc; try done.
  destruct (h !! m) as [[|a|]|] eqn:Hm; try done.
  rewrite (lookup_weaken _ _ _ _ Hthis Hsub).
  rewrite (lookup_weaken _ _ _ _ Hc Hsub).
  by rewrite (lookup_weaken _ _ _ _ Hm Hsub).
Qed.

Lemma load_inv (h : Heap) (this : loc) (b : RouteHandlerBuilder) :
  load h this = Some b ->
  exists c m,
    h !! this = Some (ObjBuilder c m (handleServerError b))
    /\ h !! c = Some (ObjConfig (config b))
    /\ h !! m = Some (ObjArray (middlewares b)).
Proof.
  unfold load. intros Hload.
  destruct (h !! this) as [[| |c m e]|] eqn:Hthis; try done.
  destruct (h !! c) as [[cfg| |]|] eqn:Hc; try done.
  destruct (h !! m) as [[|a|]|] eqn:Hm; try done.
  injection Hload as <-. by exists c, m.
Qed.

(** A builder made of a new config object and an existing array. *)
Lemma new_builder_with_config (h h1 : Heap) (c' m : loc) cfg a e :
  h !! m = Some (ObjArray a) ->
  alloc h (ObjConfig cfg) = (c', h1) ->
  exists new h',
    new_RouteHandlerBuilder h1 (Some c') (Some m) e = (new, h')
    /\ (new ∉ dom h) /\ h ⊆ h'
    /\ load h' new = Some {| config := cfg; middlewares := a;
                             handleServerError := e |}.
Proof.
  intros Hm Halloc.
  destruct (alloc_spec _ _ _ _ Halloc) as (Hc'1 & Hc'2 & Hsub1).
  simpl. destruct (alloc h1 (ObjBuilder c' m e)) as [new h'] eqn:Halloc2.
  destruct (alloc_spec _ _ _ _ Halloc2) as (Hn1 & Hn2 & Hsub2).
  exists new, h'. split_and!; [done| | |].
  - apply not_elem_of_dom. by eapply lookup_weaken_None.
  - by trans h1.
  - unfold load. rewrite Hn2.
    rewrite (lookup_weaken _ _ _ _ Hc'2 Hsub2).
    assert (h ⊆ h') as Hsub by (by trans h1).
    by rewrite (lookup_weaken _ _ _ _ Hm Hsub).
Qed.

(** C8. Each chaining method returns a builder object that did not exist
    before and leaves every existing object as it was, the original builder
    with its config and its middleware array among them. [params], [query]
    and [body] give the new builder a config that differs from the
    original's in that one slot only, with the same middleware and the same
    error handler; [use] gives it a new array, the original's middleware
    followed by the added one, with the same config and the same error
    handler. *)
Theorem chaining_returns_new_builder
    (h : Heap) (this : loc) (b : RouteHandlerBuilder)
    (schema : Schema) (middleware : Middleware) :
  load h this = Some b ->
  let cfg := config b in
  let chained (result : option (loc * Heap)) (b' : RouteHandlerBuilder) :=
    exists new h',
      result = Some (new, h')
      /\ (new ∉ dom h)
      /\ h ⊆ h'
      /\ load h' this = Some b
      /\ load h' new = Some b' in
  chained (params h this schema)
    {| config := {| paramsSchema := Some schema;
                    querySchema := querySchema cfg;
                    bodySchema := bodySchema cfg |};
       middlewares := middlewares b;
       handleServerError := handleServerError b |}
  /\ chained (query h this schema)
       {| config := {| paramsSchema := paramsSchema cfg;
                       querySchema := Some schema;
                       bodySchema := bodySchema cfg |};
          middlewares := middlewares b;
          handleServerError := handleServerError b |}
  /\ chained (body h this schema)
       {| config := {| paramsSchema := paramsSchema cfg;
                       querySchema := querySchema cfg;
                       bodySchema := Some schema |};
          middlewares := middlewares b;
          handleServerError := handleServerError b |}
  /\ chained (use h this middleware)
       {| config := cfg;
          middlewares := middlewares b ++ [middleware];
          handleServerError := handleServerError b |}
  /\ (forall new h', use h this middleware = Some (new, h') ->
        exists m', middlewares_ref_of h' new = Some m' /\ m' ∉ dom h).
Proof.
  intros Hload cfg chained. subst cfg chained. simpl.
  destruct (load_inv _ _ _ Hload) as (c & m & Hthis & Hc & Hm).
  split_and!.
  - unfold params. rewrite Hthis, Hc.
    destruct (alloc h (ObjConfig _)) as [c' h1] eqn:Halloc.
    destruct (new_builder_with_config _ _ _ _ _ _ (handleServerError b) Hm Halloc)
      as (new & h' & -> & Hnew & Hsub & Hl).
    exists new, h'. split_and!; try done. by eapply load_mono.
  - unfold query. rewrite Hthis, Hc.
    destruct (alloc h (ObjConfig _)) as [c' h1] eqn:Halloc.
    destruct (new_builder_with_config _ _ _ _ _ _ (handleServerError b) Hm Halloc)
      as (new & h' & -> & Hnew & Hsub & Hl).
    exists new, h'. split_and!; try done. by eapply load_mono.
  - unfold body. rewrite Hthis, Hc.
    destruct (alloc h (ObjConfig _)) as [c' h1] eqn:Halloc.
    destruct (new_builder_with_config _ _ _ _ _ _ (handleServerError b) Hm Halloc)
      as (new & h' & -> & Hnew & Hsub & Hl).
    exists new, h'. split_and!; try done. by eapply load_mono.
  - unfold use. rewrite Hthis, Hm.
    destruct (alloc h (ObjArray _)) as [m' h1] eqn:Halloc.
    destruct (alloc_spec _ _ _ _ Halloc) as (Hm'1 & Hm'2 & Hsub1).
    unfold new_RouteHandlerBuilder.
    destruct (alloc h1 (ObjBuilder c m' (handleServerError b))) as [new h'] eqn:Halloc2.
    destruct (alloc_spec _ _ _ _ Halloc2) as (Hn1 & Hn2 & Hsub2).
    assert (h ⊆ h') as Hsub by (by trans h1).
    exists new, h'. split_and!; [done| |done|by eapply load_mono|].
    + apply not_elem_of_dom. by eapply lookup_weaken_None.
    + unfold load. rewrite Hn2.
      rewrite (lookup_weaken _ _ _ _ Hc Hsub).
      by rewrite (lookup_weaken _ _ _ _ Hm'2 Hsub2).
  - intros new h'. unfold use. rewrite Hthis, Hm.
    destruct (alloc h (ObjArray _)) as [m' h1] eqn:Halloc.
    destruct (alloc_spec _ _ _ _ Halloc) as (Hm'1 & Hm'2 & Hsub1).
    unfold new_RouteHandlerBuilder.
    destruct (alloc h1 (ObjBuilder c m' (handleServerError b))) as [new0 h0] eqn:Halloc2.
    destruct (alloc_spec _ _ _ _ Halloc2) as (Hn1 & Hn2 & Hsub2).
    intros [= <- <-]. exists m'. unfold middlewares_ref_of. rewrite Hn2.
    split; [done|]. by apply not_elem_of_dom.
Qed.

(** * The properties on sample routes *)

(** A form POST with [field=test-field], on a route whose body schema wants
    a [field]: 200 and [{ field: "test-field" }]. *)
Example form_post_is_parsed_and_validated :
  run (handler sample_stringify
         (sample_route None None (Some (required_string "field")) [] None)
         body_handler
         (sample_request "POST" (Some "application/x-www-form-urlencoded") []
                         (Throw syntax_error))
         None) =
  (Normal {| resp_body :=
               sample_stringify (JObject {[ "field" := JString "test-field" ]});
             resp_status := 200;
             resp_headers := [("Content-Type", "application/json")] |},
   [EvFormData;
    EvSafeParse SlotBody (JObject {[ "field" := JString "test-field" ]});
    EvHandler {| ctx_params := JObject ∅; ctx_query := JObject ∅;
                 ctx_body := JObject {[ "field" := JString "test-field" ]};
                 ctx_data := ∅ |}]).
Proof. vm_compute. reflexivity. Qed.

(** A DELETE with an unparsable payload and a JSON content type: the body is
    not read and the user handler answers. *)
Example delete_does_not_read_the_body :
  run (handler sample_stringify (sample_route None None None [] None)
         created_handler
         (sample_request "DELETE" (Some "application/json") []
                         (Throw syntax_error))
         None) =
  (Normal {| resp_body := "created"; resp_status := 201;
             resp_headers := [("X-Custom-Header", "test")] |},
   [EvHandler {| ctx_params := JObject ∅; ctx_query := JObject ∅;
                 ctx_body := JObject ∅; ctx_data := ∅ |}]).
Proof. vm_compute. reflexivity. Qed.

(** A repeated query key: the last occurrence remains. *)
Example query_last_occurrence_wins :
  read_query (sample_request "GET" None [("a", "1"); ("b", "2"); ("a", "3")]
                             (Throw syntax_error)) =
  JObject {[ "a" := JString "3"; "b" := JString "2" ]}.
Proof. vm_compute. reflexivity. Qed.

(** A POST with an empty JSON object and no route params, on a route with
    the three schemas: params are rejected first. *)
Lemma validation_order_and_abort_witness :
  run (handler sample_stringify
         (sample_route (Some (required_string "id"))
                       (Some (required_string "search"))
                       (Some (required_string "field")) [mw_x1] None)
         echo_handler
         (sample_request "POST" None [] (Normal (JObject ∅)))
         None) =
  (Normal {| resp_body :=
               sample_stringify
                 (JObject {[ "message" := JString "Invalid params";
                             "errors" := JArray [sample_issue "invalid_type" "id"] ]});
             resp_status := 400; resp_headers := [] |},
   [EvJson; EvSafeParse SlotParams (JObject ∅)]).
Proof.
  destruct (validation_order_and_abort sample_stringify
              (sample_route (Some (required_string "id"))
                            (Some (required_string "search"))
                            (Some (required_string "field")) [mw_x1] None)
              echo_handler
              (sample_request "POST" None [] (Normal (JObject ∅)))
              None (JObject ∅) (JObject ∅) [EvJson])
    as [H _]; [reflexivity|reflexivity|].
  exact (H (required_string "id") [sample_issue "invalid_type" "id"]
           eq_refl eq_refl).
Defined.

(** The claim as the spec states it fails when the body cannot be read: the
    params schema rejects the params, and the response is the 500 of the
    failed body read. *)
Lemma params_rejection_after_body_failure :
  ~ (forall (JSON_stringify : JsValue -> string) (self : RouteHandlerBuilder)
            (handler0 : HandlerFunction) (request : Request)
            (context : option RouteContext) (p : JsValue) (schema : Schema)
            (issues : list JsValue),
        read_params context = Normal p ->
        paramsSchema (config self) = Some schema ->
        safeParse schema p = ParseFailure issues ->
        (run (handler JSON_stringify self handler0 request context)).1 =
        Normal {| resp_body :=
                    JSON_stringify
                      (JObject {[ "message" := JString "Invalid params";
                                  "errors" := JArray issues ]});
                  resp_status := 400; resp_headers := [] |}).
Proof.
  intros H.
  specialize (H sample_stringify
                (sample_route (Some (required_string "id")) None None [] None)
                echo_handler
                (sample_request "POST" (Some "application/json") [] (Throw syntax_error))
                None (JObject ∅) (required_string "id")
                [sample_issue "invalid_type" "id"] eq_refl eq_refl eq_refl).
  vm_compute in H. discriminate H.
Qed.

(** A GET with an empty [search] and no route params, on a route whose
    params schema fills in a default, whose query and body schemas reject,
    and which has a custom error handler: the body schema rejects the empty
    body, and the answer is 400 "Invalid query", the first rejection. *)
Lemma validation_failure_response_witness :
  exists slot' schema' issues',
    slot' = SlotQuery
    /\ schema' = required_string "search"
    /\ issues' = [sample_issue "too_small" "search"]
    /\ (run (handler sample_stringify
               (sample_route (Some (string_with_default "id" "0"))
                             (Some (required_string "search"))
                             (Some (required_string "field")) [mw_x1]
                             (Some unavailable))
               echo_handler
               (sample_request "GET" None [("search", EmptyString)]
                               (Throw syntax_error))
               None)).1
       = Normal {| resp_body :=
                     sample_stringify
                       (JObject {[ "message" := JString (slot_message slot');
                                   "errors" := JArray issues' ]});
                   resp_status := 400; resp_headers := [] |}.
Proof.
  destruct (validation_failure_response sample_stringify
              (sample_route (Some (string_with_default "id" "0"))
                            (Some (required_string "search"))
                            (Some (required_string "field")) [mw_x1]
                            (Some unavailable))
              echo_handler
              (sample_request "GET" None [("search", EmptyString)]
                              (Throw syntax_error))
              None (JObject ∅) (JObject ∅) []
              SlotBody (required_string "field")
              [sample_issue "invalid_type" "field"])
    as (slot' & schema' & issues' & Hrank & Hs & Hf & Hacc & _ & Hresp & _ & _).
  - reflexivity.
  - reflexivity.
  - reflexivity.
  - vm_compute. reflexivity.
  - exists slot', schema', issues'.
    destruct slot'.
    + vm_compute in Hf. injection Hs as <-. discriminate Hf.
    + injection Hs as <-. vm_compute in Hf. injection Hf as <-.
      split_and!; [reflexivity|reflexivity|reflexivity|exact Hresp].
    + destruct (Hacc SlotQuery) as [v' Hv']; [simpl; lia|].
      vm_compute in Hv'. discriminate Hv'.
Defined.

(** A POST whose JSON payload cannot be parsed, on a route with a custom
    error handler: the handler's response is the route's. *)
Lemma other_errors_go_to_error_handler_witness :
  let r := run (handler sample_stringify
                  (sample_route None None None [] (Some unavailable))
                  echo_handler
                  (sample_request "POST" None [] (Throw syntax_error))
                  None) in
  r.1 = Normal (unavailable syntax_error)
  /\ exists tr0, r.2 = tr0 ++ [EvHandleServerError syntax_error]
                 /\ forall e', EvHandleServerError e' ∉ tr0.
Proof.
  apply (other_errors_go_to_error_handler sample_stringify
           (sample_route None None None [] (Some unavailable))
           echo_handler
           (sample_request "POST" None [] (Throw syntax_error))
           None (JString "SyntaxError")).
  left. split; [vm_compute; constructor|reflexivity].
Defined.

(** The claim as the spec states it fails for a user handler that throws an
    [InternalRouteHandlerError]: the custom error handler is configured and
    is not asked. *)
Lemma internal_error_from_handler_skips_error_handler :
  ~ (forall (JSON_stringify : JsValue -> string) (self : RouteHandlerBuilder)
            (handler0 : HandlerFunction) (request : Request)
            (context : option RouteContext) (hc : HandlerContext)
            (e : Thrown) (f : HandlerServerErrorFn),
        EvHandler hc ∈ (run (handler JSON_stringify self handler0 request context)).2 ->
        handler0 request hc = Throw e ->
        handleServerError self = Some f ->
        (run (handler JSON_stringify self handler0 request context)).1 =
        Normal (f e)).
Proof.
  intros H.
  specialize (H sample_stringify
                (sample_route None None None [] (Some unavailable))
                (throwing_handler (InternalRouteHandlerError "boom"))
                (sample_request "GET" None [] (Throw syntax_error))
                None
                {| ctx_params := JObject ∅; ctx_query := JObject ∅;
                   ctx_body := JObject ∅; ctx_data := ∅ |}
                (InternalRouteHandlerError "boom") unavailable).
  assert ((run (handler sample_stringify
                  (sample_route None None None [] (Some unavailable))
                  (throwing_handler (InternalRouteHandlerError "boom"))
                  (sample_request "GET" None [] (Throw syntax_error))
                  None)).1
          = Normal {| resp_body := "boom"; resp_status := 400;
                      resp_headers := [] |}) as Hrun
    by (vm_compute; reflexivity).
  rewrite Hrun in H.
  assert (Normal {| resp_body := "boom"; resp_status := 400; resp_headers := [] |}
          = Normal (unavailable (InternalRouteHandlerError "boom"))) as Heq.
  { apply H; [vm_compute; constructor|reflexivity|reflexivity]. }
  discriminate Heq.
Qed.

(** A GET with [?search=test] and route params [{ id: "7" }], on a route
    whose body schema fills in a default: the user handler receives the
    parsed values. *)
Lemma handler_receives_parsed_values_witness :
  EvHandler {| ctx_params := JObject {[ "id" := JString "7" ]};
               ctx_query := JObject {[ "search" := JString "test" ]};
               ctx_body := JObject {[ "field" := JString "none" ]};
               ctx_data := {[ "x" := JNumber 1 ]} |}
  ∈ (run (handler sample_stringify
            (sample_route (Some (required_string "id")) None
                          (Some (string_with_default "field" "none")) [mw_x1] None)
            echo_handler
            (sample_request "GET" None [("search", "test")] (Throw syntax_error))
            (Some {| route_params :=
                       Some (Normal {[ "id" := JString "7";
                                       "extra" := JBool true ]}) |}))).2.
Proof.
  refine (proj2 (handler_receives_parsed_values sample_stringify
                   (sample_route (Some (required_string "id")) None
                                 (Some (string_with_default "field" "none"))
                                 [mw_x1] None)
                   echo_handler
                   (sample_request "GET" None [("search", "test")] (Throw syntax_error))
                   (Some {| route_params :=
                              Some (Normal {[ "id" := JString "7";
                                              "extra" := JBool true ]}) |})
                   (JObject {[ "id" := JString "7"; "extra" := JBool true ]})
                   (JObject ∅)
                   (JObject {[ "id" := JString "7" ]})
                   (JObject {[ "search" := JString "test" ]})
                   (JObject {[ "field" := JString "none" ]})
                   [] _ _ _ _ _) {[ "x" := JNumber 1 ]} _).
  all: vm_compute; reflexivity.
Defined.



(** A handler that returns a 201 response with a header of its own. *)
Lemma response_normalization_witness :
  (run (handler sample_stringify (sample_route None None None [] None)
          created_handler
          (sample_request "GET" None [] (Throw syntax_error)) None)).1 =
  Normal {| resp_body := "created"; resp_status := 201;
            resp_headers := [("X-Custom-Header", "test")] |}.
Proof.
  refine (proj1 (response_normalization sample_stringify
                   (sample_route None None None [] None)
                   created_handler
                   (sample_request "GET" None [] (Throw syntax_error)) None
                   {| ctx_params := JObject ∅; ctx_query := JObject ∅;
                      ctx_body := JObject ∅; ctx_data := ∅ |} _) _ _).
  - vm_compute. constructor.
  - reflexivity.
Defined.

(** [use] on the builder that the constructor makes. *)
Lemma chaining_returns_new_builder_witness :
  exists new h',
    use sample_heap.2 sample_heap.1 mw_x1 = Some (new, h')
    /\ (new ∉ dom sample_heap.2)
    /\ sample_heap.2 ⊆ h'
    /\ load h' sample_heap.1 = Some (sample_route None None None [] None)
    /\ load h' new = Some (sample_route None None None [mw_x1] None).
Proof.
  destruct (chaining_returns_new_builder sample_heap.2 sample_heap.1
              (sample_route None None None [] None)
              (required_string "id") mw_x1) as (_ & _ & _ & H & _).
  - vm_compute. reflexivity.
  - exact H.
Defined.

(** The first of three middleware returns, the second throws: the third and
    the user handler are not called, and the custom error handler answers. *)
Lemma middleware_exception_aborts_witness :
  let r := run (handler sample_stringify
                  (sample_route None None None
                     [mw_x1; throwing_middleware syntax_error; mw_x2_y3]
                     (Some unavailable))
                  echo_handler
                  (sample_request "GET" None [] (Throw syntax_error)) None) in
  (forall hc, EvHandler hc ∉ r.2)
  /\ (exists tr0,
        r.2 = tr0 ++ [EvMiddleware (throwing_middleware syntax_error)
                        {[ "x" := JNumber 1 ]}]
        \/ r.2 = tr0 ++ [EvMiddleware (throwing_middleware syntax_error)
                           {[ "x" := JNumber 1 ]};
                         EvHandleServerError syntax_error])
  /\ r.1 = Normal (unavailable syntax_error).
Proof.
  apply (middleware_exception_aborts sample_stringify
           (sample_route None None None
              [mw_x1; throwing_middleware syntax_error; mw_x2_y3]
              (Some unavailable))
           echo_handler
           (sample_request "GET" None [] (Throw syntax_error)) None
           (throwing_middleware syntax_error) {[ "x" := JNumber 1 ]}
           syntax_error).
  - vm_compute. constructor. constructor.
  - reflexivity.
Defined.

(** The claim as the spec states it fails for a middleware that throws an
    [InternalRouteHandlerError]: the answer is the 400 of a validation
    error, not the custom error handler's. *)
Lemma internal_error_from_middleware_is_answered_400 :
  ~ (forall (JSON_stringify : JsValue -> string) (self : RouteHandlerBuilder)
            (handler0 : HandlerFunction) (request : Request)
            (context : option RouteContext) (mw : Middleware) (c : JsObject)
            (e : Thrown),
        EvMiddleware mw c ∈ (run (handler JSON_stringify self handler0 request context)).2 ->
        mw request c = Throw e ->
        (run (handler JSON_stringify self handler0 request context)).1 =
        Normal match handleServerError self with
               | Some f => f e
               | None =>
                   {| resp_body :=
                        JSON_stringify
                          (JObject {[ "message" := JString "Internal server error" ]});
                      resp_status := 500; resp_headers := [] |}
               end).
Proof.
  intros H.
  specialize (H sample_stringify
                (sample_route None None None
                   [throwing_middleware (InternalRouteHandlerError "denied")]
                   (Some unavailable))
                echo_handler
                (sample_request "GET" None [] (Throw syntax_error)) None
                (throwing_middleware (InternalRouteHandlerError "denied")) ∅
                (InternalRouteHandlerError "denied")).
  assert ((run (handler sample_stringify
                  (sample_route None None None
                     [throwing_middleware (InternalRouteHandlerError "denied")]
                     (Some unavailable))
                  echo_handler
                  (sample_request "GET" None [] (Throw syntax_error)) None)).1
          = Normal {| resp_body := "denied"; resp_status := 400;
                      resp_headers := [] |}) as Hrun
    by (vm_compute; reflexivity).
  rewrite Hrun in H.
  assert (Normal {| resp_body := "denied"; resp_status := 400; resp_headers := [] |}
          = Normal (unavailable (InternalRouteHandlerError "denied"))) as Heq.
  { apply H; [vm_compute; constructor|reflexivity]. }
  discriminate Heq.
Qed.

(** A GET on a route whose body schema wants a [field]: 400 "Invalid body",
    with no body read. *)
Lemma get_delete_body_is_empty_witness :
  run (handler sample_stringify
         (sample_route None None (Some (required_string "field")) [] None)
         echo_handler
         (sample_request "GET" (Some "application/json") []
            (Normal (JObject {[ "field" := JString "test-field" ]})))
         None) =
  (Normal {| resp_body :=
               sample_stringify
                 (JObject {[ "message" := JString "Invalid body";
                             "errors" := JArray [sample_issue "invalid_type" "field"] ]});
             resp_status := 400; resp_headers := [] |},
   [EvSafeParse SlotBody (JObject ∅)]).
Proof.
  destruct (get_delete_body_is_empty sample_stringify
              (sample_route None None (Some (required_string "field")) [] None)
              echo_handler
              (sample_request "GET" (Some "application/json") []
                 (Normal (JObject {[ "field" := JString "test-field" ]})))
              None) as (_ & _ & H).
  - left. reflexivity.
  - exact (H (required_string "field") [sample_issue "invalid_type" "field"]
             (JObject ∅) (JObject ∅) (JObject ∅)
             eq_refl eq_refl eq_refl eq_refl eq_refl).
Defined.

(** The claim as the spec states it fails twice. A body schema that fills in
    a default makes the user handler of a GET receive the parsed object, not
    the empty one; and a params schema that rejects comes before a body
    schema that rejects the empty object, so that the answer is "Invalid
    params". *)
Lemma get_body_parsed_or_params_first :
  ~ (forall (JSON_stringify : JsValue -> string) (self : RouteHandlerBuilder)
            (handler0 : HandlerFunction) (request : Request)
            (context : option RouteContext) (hc : HandlerContext),
        method request = "GET" \/ method request = "DELETE" ->
        EvHandler hc ∈ (run (handler JSON_stringify self handler0 request context)).2 ->
        ctx_body hc = JObject ∅)
  /\ ~ (forall (JSON_stringify : JsValue -> string) (self : RouteHandlerBuilder)
               (handler0 : HandlerFunction) (request : Request)
               (context : option RouteContext) (schema : Schema)
               (issues : list JsValue),
          method request = "GET" \/ method request = "DELETE" ->
          bodySchema (config self) = Some schema ->
          safeParse schema (JObject ∅) = ParseFailure issues ->
          (run (handler JSON_stringify self handler0 request context)).1 =
          Normal {| resp_body :=
                      JSON_stringify
                        (JObject {[ "message" := JString "Invalid body";
                                    "errors" := JArray issues ]});
                    resp_status := 400; resp_headers := [] |}).
Proof.
  split; intros H.
  - specialize (H sample_stringify
                  (sample_route None None
                     (Some (string_with_default "field" "none")) [] None)
                  echo_handler
                  (sample_request "GET" None [] (Throw syntax_error)) None
                  {| ctx_params := JObject ∅; ctx_query := JObject ∅;
                     ctx_body := JObject {[ "field" := JString "none" ]};
                     ctx_data := ∅ |}
                  (or_introl eq_refl)).
    assert (JObject {[ "field" := JString "none" ]} = JObject ∅) as Heq.
    { apply H. vm_compute. constructor. constructor. }
    vm_compute in Heq. discriminate Heq.
  - specialize (H sample_stringify
                  (sample_route (Some (required_string "id")) None
                     (Some (required_string "field")) [] None)
                  echo_handler
                  (sample_request "GET" None [] (Throw syntax_error)) None
                  (required_string "field")
                  [sample_issue "invalid_type" "field"]
                  (or_introl eq_refl) eq_refl eq_refl).
    vm_compute in H. discriminate H.
Qed.

(** * More about the builder *)

(** One chaining call on a builder that holds [b]: a new builder object
    that holds [apply_op b op], in a heap that extends the old one. *)
Lemma call_op_spec (h : Heap) (this : loc) (b : RouteHandlerBuilder) (op : Op) :
  load h this = Some b ->
  exists new h',
    call_op h this op = Some (new, h')
    /\ (new ∉ dom h) /\ h ⊆ h'
    /\ load h' new = Some (apply_op b op).
Proof.
  intros Hload.
  destruct (load_inv _ _ _ Hload) as (c & m & Hthis & Hc & Hm).
  destruct op as [schema|schema|schema|middleware]; simpl.
  - unfold params. rewrite Hthis, Hc.
    destruct (alloc h (ObjConfig _)) as [c' h1] eqn:Halloc.
    destruct (new_builder_with_config _ _ _ _ _ _ (handleServerError b) Hm Halloc)
      as (new & h' & -> & Hnew & Hsub & Hl). by exists new, h'.
  - unfold query. rewrite Hthis, Hc.
    destruct (alloc h (ObjConfig _)) as [c' h1] eqn:Halloc.
    destruct (new_builder_with_config _ _ _ _ _ _ (handleServerError b) Hm Halloc)
      as (new & h' & -> & Hnew & Hsub & Hl). by exists new, h'.
  - unfold body. rewrite Hthis, Hc.
    destruct (alloc h (ObjConfig _)) as [c' h1] eqn:Halloc.
    destruct (new_builder_with_config _ _ _ _ _ _ (handleServerError b) Hm Halloc)
      as (new & h' & -> & Hnew & Hsub & Hl). by exists new, h'.
  - unfold use. rewrite Hthis, Hm.
    destruct (alloc h (ObjArray _)) as [m' h1] eqn:Halloc.
    destruct (alloc_spec _ _ _ _ Halloc) as (Hm'1 & Hm'2 & Hsub1).
    unfold new_RouteHandlerBuilder.
    destruct (alloc h1 (ObjBuilder c m' (handleServerError b))) as [new h'] eqn:Halloc2.
    destruct (alloc_spec _ _ _ _ Halloc2) as (Hn1 & Hn2 & Hsub2).
    assert (h ⊆ h') as Hsub by (by trans h1).
    exists new, h'. split_and!; [done| |done|].
    + apply not_elem_of_dom. by eapply lookup_weaken_None.
    + unfold load. rewrite Hn2.
      rewrite (lookup_weaken _ _ _ _ Hc Hsub).
      by rewrite (lookup_weaken _ _ _ _ Hm'2 Hsub2).
Qed.

Lemma chain_spec (ops : list Op) (h : Heap) (this : loc) (b : RouteHandlerBuilder) :
  load h this = Some b ->
  exists new h',
    chain h this ops = Some (new, h')
    /\ h ⊆ h'
    /\ load h' new = Some (foldl apply_op b ops).
Proof.
  revert h this b. induction ops as [|op rest IH]; intros h this b Hload; simpl.
  - by exists this, h.
  - destruct (call_op_spec h this b op Hload) as (new & h1 & -> & _ & Hsub1 & Hl1).
    destruct (IH h1 new _ Hl1) as (new' & h' & -> & Hsub2 & Hl2).
    exists new', h'. split_and!; [done|by trans h1|done].
Qed.

Lemma last_or_cons (old : option Schema) (s : Schema) (set : list Schema) :
  last_or old (s :: set) = last_or (Some s) set.
Proof. unfold last_or. rewrite last_cons. by destruct (last set). Qed.

Lemma foldl_apply_op (ops : list Op) (b : RouteHandlerBuilder) :
  let b' := foldl apply_op b ops in
  middlewares b' = middlewares b ++ use_of ops
  /\ paramsSchema (config b') = last_or (paramsSchema (config b)) (params_of ops)
  /\ querySchema (config b') = last_or (querySchema (config b)) (query_of ops)
  /\ bodySchema (config b') = last_or (bodySchema (config b)) (body_of ops)
  /\ handleServerError b' = handleServerError b.
Proof.
  revert b. induction ops as [|op rest IH]; intros b; simpl.
  - by rewrite app_nil_r.
  - destruct (IH (apply_op b op)) as (Hm & Hp & Hq & Hb & He).
    rewrite Hm, Hp, Hq, Hb, He.
    unfold params_of, query_of, body_of, use_of.
    destruct op; simpl; rewrite ?last_or_cons, <- ?app_assoc; done.
Qed.

(** X1. A fluent chain from a builder ends in a builder whose middleware
    are the original's followed by the middleware of the [use] calls in
    their order, whose schema for each slot is the one of the last call for
    that slot, or the original's if the chain has none, and whose error
    handler is the original's. The original builder still holds what it
    held. *)
Theorem chain_composes
    (h : Heap) (this : loc) (b : RouteHandlerBuilder) (ops : list Op) :
  load h this = Some b ->
  exists new h' b',
    chain h this ops = Some (new, h')
    /\ h ⊆ h'
    /\ load h' this = Some b
    /\ load h' new = Some b'
    /\ middlewares b' = middlewares b ++ use_of ops
    /\ paramsSchema (config b') = last_or (paramsSchema (config b)) (params_of ops)
    /\ querySchema (config b') = last_or (querySchema (config b)) (query_of ops)
    /\ bodySchema (config b') = last_or (bodySchema (config b)) (body_of ops)
    /\ handleServerError b' = handleServerError b.
Proof.
  intros Hload.
  destruct (chain_spec ops h this b Hload) as (new & h' & Hchain & Hsub & Hl).
  destruct (foldl_apply_op ops b) as (Hm & Hp & Hq & Hb & He).
  exists new, h', (foldl apply_op b ops).
  split_and!; try done. by eapply load_mono.
Qed.

Lemma chain_composes_witness :
  exists new h' b',
    chain sample_heap.2 sample_heap.1
      [OpParams (required_string "id"); OpUse mw_x1;
       OpParams (required_string "slug"); OpUse mw_x2_y3] = Some (new, h')
    /\ load h' new = Some b'
    /\ middlewares b' = [mw_x1; mw_x2_y3]
    /\ paramsSchema (config b') = Some (required_string "slug")
    /\ querySchema (config b') = None.
Proof.
  destruct (chain_composes sample_heap.2 sample_heap.1
              (sample_route None None None [] None)
              [OpParams (required_string "id"); OpUse mw_x1;
               OpParams (required_string "slug"); OpUse mw_x2_y3])
    as (new & h' & b' & H1 & _ & _ & H4 & H5 & H6 & H7 & _).
  - vm_compute. reflexivity.
  - exists new, h', b'. split_and!; [exact H1|exact H4|exact H5|exact H6|exact H7].
Defined.

(** X2. Two chains from the same builder do not see each other: the second
    one, made after the first, ends in a builder that holds what it would
    hold had the first chain never been made, and the builder that the
    first chain ended in holds what it held. *)
Theorem branches_are_independent
    (h : Heap) (this : loc) (b : RouteHandlerBuilder) (ops1 ops2 : list Op)
    (n1 : loc) (h1 : Heap) :
  load h this = Some b ->
  chain h this ops1 = Some (n1, h1) ->
  exists n2 h2,
    chain h1 this ops2 = Some (n2, h2)
    /\ load h2 n1 = load h1 n1
    /\ forall n2' h2', chain h this ops2 = Some (n2', h2') ->
                       load h2 n2 = load h2' n2'.
Proof.
  intros Hload Hchain1.
  destruct (chain_spec ops1 h this b Hload) as (n1' & h1' & Hc1 & Hsub1 & Hl1).
  rewrite Hchain1 in Hc1. injection Hc1 as <- <-.
  pose proof (load_mono _ _ _ _ Hsub1 Hload) as Hload1.
  destruct (chain_spec ops2 h1 this b Hload1) as (n2 & h2 & Hc2 & Hsub2 & Hl2).
  exists n2, h2. split_and!; [done| |].
  - rewrite Hl1. by eapply load_mono.
  - intros n2' h2' Hc2'.
    destruct (chain_spec ops2 h this b Hload) as (n & h' & Hc & _ & Hl).
    rewrite Hc2' in Hc. injection Hc as <- <-. by rewrite Hl2, Hl.
Qed.

Lemma branches_are_independent_witness :
  exists n1 h1 n2 h2,
    chain sample_heap.2 sample_heap.1 [OpUse mw_x1] = Some (n1, h1)
    /\ chain h1 sample_heap.1 [OpBody (required_string "field")] = Some (n2, h2)
    /\ load h2 n1 = Some (sample_route None None None [mw_x1] None)
    /\ load h2 n2 =
       Some (sample_route None None (Some (required_string "field")) [] None).
Proof.
  destruct (chain sample_heap.2 sample_heap.1 [OpUse mw_x1]) as [[n1 h1]|] eqn:Hc1;
    [|vm_compute in Hc1; discriminate Hc1].
  destruct (branches_are_independent sample_heap.2 sample_heap.1
              (sample_route None None None [] None)
              [OpUse mw_x1] [OpBody (required_string "field")] n1 h1)
    as (n2 & h2 & Hc2 & Hl1 & Hl2).
  - vm_compute. reflexivity.
  - exact Hc1.
  - exists n1, h1, n2, h2. split_and!; [done|exact Hc2| |].
    + rewrite Hl1. vm_compute in Hc1. injection Hc1 as <- <-.
      vm_compute. reflexivity.
    + destruct (chain sample_heap.2 sample_heap.1 [OpBody (required_string "field")])
        as [[n2' h2']|] eqn:Hc2'; [|vm_compute in Hc2'; discriminate Hc2'].
      rewrite (Hl2 n2' h2' eq_refl).
      vm_compute in Hc2'. injection Hc2' as <- <-. vm_compute. reflexivity.
Defined.

(** X3. [params], [query] and [body] do not copy the middleware array: the
    new builder refers to the array object of the original. [use] does not
    copy the config: the new builder refers to the config object of the
    original. *)
Theorem chaining_shares_objects
    (h : Heap) (this : loc) (schema : Schema) (middleware : Middleware)
    (new : loc) (h' : Heap) :
  (params h this schema = Some (new, h')
   \/ query h this schema = Some (new, h')
   \/ body h this schema = Some (new, h') ->
   middlewares_ref_of h' new = middlewares_ref_of h this
   /\ config_ref_of h' new <> config_ref_of h this)
  /\ (use h this middleware = Some (new, h') ->
      config_ref_of h' new = config_ref_of h this
      /\ middlewares_ref_of h' new <> middlewares_ref_of h this).
Proof.
  split.
  - intros Hop.
    assert (exists c m e cfg c' h1,
               h !! this = Some (ObjBuilder c m e)
               /\ is_Some (h !! c)
               /\ alloc h (ObjConfig cfg) = (c', h1)
               /\ new_RouteHandlerBuilder h1 (Some c') (Some m) e = (new, h'))
      as (c & m & e & cfg & c' & h1 & Hthis & Hc & Halloc & Hnew).
    { unfold params, query, body in Hop.
      destruct (h !! this) as [[| |c m e]|] eqn:Hthis;
        try (destruct Hop as [Hop|[Hop|Hop]]; discriminate Hop).
      destruct (h !! c) as [[cfg| |]|] eqn:Hc;
        try (destruct Hop as [Hop|[Hop|Hop]]; discriminate Hop).
      destruct Hop as [Hop|[Hop|Hop]].
      all: match type of Hop with
           | context [alloc ?hh (ObjConfig ?x)] =>
               destruct (alloc hh (ObjConfig x)) as [c' h1] eqn:Halloc
           end.
      all: assert (new_RouteHandlerBuilder h1 (Some c') (Some m) e = (new, h'))
             by congruence.
      all: eexists c, m, e, _, c', h1; split_and!; [done|by eexists|done|done]. }
    destruct (alloc_spec _ _ _ _ Halloc) as (Hc'1 & Hc'2 & Hsub1).
    unfold new_RouteHandlerBuilder in Hnew.
    destruct (alloc_spec _ _ _ _ Hnew) as (Hn1 & Hn2 & Hsub2).
    unfold middlewares_ref_of, config_ref_of. rewrite Hn2, Hthis.
    split; [done|]. intros [= ->]. destruct Hc as [? Hc]. congruence.
  - unfold use. intros Hop.
    destruct (h !! this) as [[| |c m e]|] eqn:Hthis; try discriminate Hop.
    destruct (h !! m) as [[|a|]|] eqn:Hm; try discriminate Hop.
    destruct (alloc h (ObjArray (a ++ [middleware]))) as [m' h1] eqn:Halloc.
    assert (new_RouteHandlerBuilder h1 (Some c) (Some m') e = (new, h')) as Hnew
      by congruence.
    destruct (alloc_spec _ _ _ _ Halloc) as (Hm'1 & Hm'2 & Hsub1).
    unfold new_RouteHandlerBuilder in Hnew.
    destruct (alloc_spec _ _ _ _ Hnew) as (Hn1 & Hn2 & Hsub2).
    unfold middlewares_ref_of, config_ref_of. rewrite Hn2, Hthis.
    split; [done|]. intros [= ->]. congruence.
Qed.

Lemma chaining_shares_objects_witness :
  exists new h',
    use sample_heap.2 sample_heap.1 mw_x1 = Some (new, h')
    /\ config_ref_of h' new = config_ref_of sample_heap.2 sample_heap.1
    /\ middlewares_ref_of h' new <> middlewares_ref_of sample_heap.2 sample_heap.1.
Proof.
  destruct (use sample_heap.2 sample_heap.1 mw_x1) as [[new h']|] eqn:Huse;
    [|vm_compute in Huse; discriminate Huse].
  exists new, h'. split; [reflexivity|].
  exact (proj2 (chaining_shares_objects sample_heap.2 sample_heap.1
                  (required_string "id") mw_x1 new h') Huse).
Defined.

(** X4. The constructor called without a config and without middleware
    makes three new objects: a config with no schema, an empty middleware
    array and the builder that refers to them, with the error handler it was
    given. Nothing that existed is changed, and no existing builder shares
    the new config or the new array. *)
Theorem constructor_defaults
    (h : Heap) (handleServerError0 : option HandlerServerErrorFn)
    (new : loc) (h' : Heap) :
  new_RouteHandlerBuilder h None None handleServerError0 = (new, h') ->
  (new ∉ dom h)
  /\ h ⊆ h'
  /\ load h' new = Some {| config := {| paramsSchema := None; querySchema := None;
                                       bodySchema := None |};
                          middlewares := [];
                          handleServerError := handleServerError0 |}
  /\ exists c m,
      config_ref_of h' new = Some c /\ middlewares_ref_of h' new = Some m
      /\ (c ∉ dom h) /\ (m ∉ dom h) /\ c <> m /\ c <> new /\ m <> new.
Proof.
  unfold new_RouteHandlerBuilder. intros Hnew.
  destruct (alloc h (ObjConfig _)) as [c h1] eqn:Hc.
  destruct (alloc h1 (ObjArray [])) as [m h2] eqn:Hm.
  destruct (alloc_spec _ _ _ _ Hc) as (Hc1 & Hc2 & Hsub1).
  destruct (alloc_spec _ _ _ _ Hm) as (Hm1 & Hm2 & Hsub2).
  destruct (alloc_spec _ _ _ _ Hnew) as (Hn1 & Hn2 & Hsub3).
  assert (h ⊆ h2) as Hsub12 by (by trans h1).
  pose proof (lookup_weaken _ _ _ _ Hc2 Hsub2) as Hc3.
  split_and!.
  - apply not_elem_of_dom. by eapply lookup_weaken_None.
  - by trans h2.
  - unfold load. rewrite Hn2.
    rewrite (lookup_weaken _ _ _ _ Hc3 Hsub3).
    by rewrite (lookup_weaken _ _ _ _ Hm2 Hsub3).
  - exists c, m. unfold config_ref_of, middlewares_ref_of. rewrite Hn2.
    split_and!; try done.
    + by apply not_elem_of_dom.
    + apply not_elem_of_dom. by eapply lookup_weaken_None.
    + congruence.
    + congruence.
    + congruence.
Qed.

Lemma constructor_defaults_witness :
  load sample_heap.2 sample_heap.1 = Some (sample_route None None None [] None).
Proof.
  destruct (constructor_defaults ∅ None sample_heap.1 sample_heap.2)
    as (_ & _ & H & _).
  - reflexivity.
  - exact H.
Defined.

(** * More about the runs of a route *)

Lemma follows_sorted_stage4 (l : list Event) :
  (forall ev, ev ∈ l -> stage ev = 4) -> StronglySorted follows l.
Proof.
  induction l as [|ev l IH]; intros Hl; constructor.
  - apply IH. intros ev' Hin. apply Hl. by right.
  - apply Forall_forall. intros ev' Hin. right. split.
    + apply Hl. by left.
    + apply Hl. by right.
Qed.

Lemma follows_sorted_short (l : list Event) :
  length l <= 1 -> StronglySorted follows l.
Proof.
  destruct l as [|ev [|ev' l]]; simpl; intros Hlen; [constructor| |lia].
  constructor; constructor.
Qed.

Lemma read_body_short request out trb :
  read_body request [] = (out, trb) -> length trb <= 1.
Proof.
  intros Hb.
  destruct (read_body_cases _ _ _ Hb) as [[-> _]|[[-> _]|[-> _]]]; simpl; lia.
Qed.

Lemma parse_events_short slot schema v :
  length (parse_events slot schema v) <= 1.
Proof. destruct schema; simpl; lia. Qed.

Lemma catch_events_short self e : length (catch_events self e) <= 1.
Proof.
  unfold catch_events. destruct e; [simpl; lia|].
  destruct (handleServerError self); simpl; lia.
Qed.

(** Decide [follows] between two calls that are known. *)
Ltac follows_tac :=
  unfold follows;
  repeat match goal with s : Slot |- _ => destruct s end;
  simpl; lia.

Section MoreTraceFacts.

Variable JSON_stringify : JsValue -> string.

Lemma validated_sorted self request context p' q' b' tr :
  validated self request context p' q' b' tr ->
  StronglySorted follows tr.
Proof.
  intros (p & b & trb & Hp & Hb & HP & HQ & HB & ->).
  repeat apply StronglySorted_app_2.
  all: try (apply follows_sorted_short;
            first [by eapply read_body_short|apply parse_events_short]).
  all: intros x1 x2 Hx1 Hx2; trace_in Hx1; trace_in Hx2; follows_tac.
Qed.

Lemma try_run_sorted self handler0 request context out tr :
  try_run JSON_stringify self handler0 request context out tr ->
  StronglySorted follows tr.
Proof.
  intros Htry. destruct Htry.
  all: repeat apply StronglySorted_app_2.
  all: try (apply follows_sorted_short;
            first [by eapply read_body_short|apply parse_events_short|simpl; lia]).
  all: try (by eapply validated_sorted).
  all: try (apply follows_sorted_stage4; intros ev Hev; by trace_in Hev).
  all: intros x1 x2 Hx1 Hx2; trace_in Hx1; trace_in Hx2; follows_tac.
Qed.

Lemma handler_run_sorted self handler0 request context :
  StronglySorted follows
    (run (handler JSON_stringify self handler0 request context)).2.
Proof.
  destruct (handler_run JSON_stringify self handler0 request context)
    as (out & tr & Htry & ->).
  pose proof (try_run_sorted _ _ _ _ _ _ Htry) as Hsorted.
  destruct out as [r|e]; [done|]. simpl.
  apply StronglySorted_app_2; [|done|].
  - intros x1 x2 Hx1 Hx2. apply catch_events_in in Hx2 as [-> _].
    destruct Htry; trace_in Hx1; follows_tac.
  - apply follows_sorted_short, catch_events_short.
Qed.

End MoreTraceFacts.

(** X5. The calls of a run are in the order of the stages: body read,
    params, query and body validation, middleware, user handler, custom
    error handler. Of any two calls of a run the later one belongs to a
    later stage, unless both are middleware calls; so no body is read
    twice, no schema is run twice, and the user handler and the custom error
    handler are called at most once. *)
Theorem stages_in_order
    (JSON_stringify : JsValue -> string)
    (self : RouteHandlerBuilder) (handler0 : HandlerFunction)
    (request : Request) (context : option RouteContext)
    (tr1 tr2 tr3 : list Event) (ev1 ev2 : Event) :
  (run (handler JSON_stringify self handler0 request context)).2
  = tr1 ++ ev1 :: tr2 ++ ev2 :: tr3 ->
  follows ev1 ev2
  /\ (stage ev1 = stage ev2 ->
      exists mw1 c1 mw2 c2, ev1 = EvMiddleware mw1 c1 /\ ev2 = EvMiddleware mw2 c2).
Proof.
  intros Htr.
  pose proof (handler_run_sorted JSON_stringify self handler0 request context)
    as Hsorted.
  rewrite Htr in Hsorted.
  apply StronglySorted_app_1_r, StronglySorted_cons in Hsorted as [Hall _].
  rewrite Forall_forall in Hall.
  assert (follows ev1 ev2) as Hfollows.
  { apply Hall. apply elem_of_app. right. by left. }
  split; [done|]. intros Hstage.
  destruct Hfollows as [Hlt|[H1 H2]]; [lia|].
  destruct ev1 as [| |s1 ?|mw1 c1| |]; try (destruct s1); try discriminate H1.
  destruct ev2 as [| |s2 ?|mw2 c2| |]; try (destruct s2); try discriminate H2.
  by exists mw1, c1, mw2, c2.
Qed.

Lemma stages_in_order_witness :
  follows (EvSafeParse SlotBody (JObject {[ "field" := JString "test-field" ]}))
          (EvHandler {| ctx_params := JObject ∅; ctx_query := JObject ∅;
                        ctx_body := JObject {[ "field" := JString "test-field" ]};
                        ctx_data := ∅ |}).
Proof.
  refine (proj1 (stages_in_order sample_stringify
                   (sample_route None None (Some (required_string "field")) [] None)
                   body_handler
                   (sample_request "POST" (Some "application/x-www-form-urlencoded") []
                                   (Throw syntax_error))
                   None [EvFormData] [] [] _ _ _)).
  vm_compute. reflexivity.
Defined.

Lemma called_middlewares_none (l : list Event) :
  (forall ev, ev ∈ l -> stage ev <> 4) -> called_middlewares l = [].
Proof.
  induction l as [|ev l IH]; intros Hl; [done|].
  unfold called_middlewares in *. simpl.
  destruct ev as [| | |mw c| |]; try (apply IH; intros ev' Hin; apply Hl; by right).
  destruct (Hl (EvMiddleware mw c)); [by left|done].
Qed.

Lemma called_middlewares_app (l1 l2 : list Event) :
  called_middlewares (l1 ++ l2) = called_middlewares l1 ++ called_middlewares l2.
Proof. apply omap_app. Qed.

Lemma mw_run_called request mws c out evs :
  mw_run request mws c out evs ->
  called_middlewares evs `prefix_of` mws
  /\ (forall d, out = Normal d -> called_middlewares evs = mws).
Proof.
  induction 1 as [c|mw rest c r out evs Hmw Hrun [IH1 IH2]|mw rest c e Hmw].
  - split; [apply prefix_nil|done].
  - split.
    + by apply prefix_cons.
    + intros d Hd. unfold called_middlewares in *. simpl. f_equal. by eapply IH2.
  - split; [|done]. apply prefix_cons, prefix_nil.
Qed.

Lemma validated_no_middleware self request context p' q' b' tr :
  validated self request context p' q' b' tr ->
  called_middlewares tr = [].
Proof.
  intros Hv. apply called_middlewares_none. intros ev Hin.
  trace_in Hin; simpl; try done.
  all: match goal with s : Slot |- _ => by destruct s end.
Qed.

(** X6. The middleware that a run calls are an initial segment of the
    registered chain, in registration order and each once; when the user
    handler is called, they are the whole chain, and the data that the user
    handler receives is the context that the whole chain built. *)
Theorem middlewares_called_are_a_prefix
    (JSON_stringify : JsValue -> string)
    (self : RouteHandlerBuilder) (handler0 : HandlerFunction)
    (request : Request) (context : option RouteContext) :
  let r := run (handler JSON_stringify self handler0 request context) in
  called_middlewares r.2 `prefix_of` middlewares self
  /\ forall hc, EvHandler hc ∈ r.2 ->
       called_middlewares r.2 = middlewares self
       /\ (run (run_middlewares request (middlewares self) ∅)).1
          = Normal (ctx_data hc).
Proof.
  intros r. subst r.
  destruct (handler_run JSON_stringify self handler0 request context)
    as (out & tr & Htry & ->).
  assert (forall e, called_middlewares (tr ++ catch_events self e)
                    = called_middlewares tr) as Hcatch.
  { intros e. rewrite called_middlewares_app.
    rewrite (called_middlewares_none (catch_events self e)); [by rewrite app_nil_r|].
    intros ev Hin. by apply catch_events_in in Hin as [-> _]. }
  assert (called_middlewares tr `prefix_of` middlewares self
          /\ forall hc, EvHandler hc ∈ tr ->
               called_middlewares tr = middlewares self
               /\ (run (run_middlewares request (middlewares self) ∅)).1
                  = Normal (ctx_data hc)) as [Hpre Hall].
  { destruct Htry.
    1-5: split; [|intros hc Hin; trace_in Hin].
    1-5: rewrite called_middlewares_none; [apply prefix_nil|].
    1-5: intros ev Hin; trace_in Hin; done.
    all: rewrite ?called_middlewares_app.
    all: rewrite (validated_no_middleware _ _ _ _ _ _ _ ltac:(eassumption)).
    all: rewrite ?(called_middlewares_none [EvHandler _]);
      [|intros ev Hin; apply list_elem_of_singleton in Hin as ->; done..].
    all: rewrite ?app_nil_r; simpl.
    all: match goal with
         | Hm : mw_run _ _ _ _ _ |- _ =>
             destruct (mw_run_called _ _ _ _ _ Hm) as [Hp Ha];
             destruct (mw_run_det _ _ _ _ _ _ _
                         (run_middlewares_nil_mw_run request (middlewares self) ∅) Hm)
               as [Hout _]
         end.
    all: split; [try done|intros hc Hin; trace_in Hin].
    all: try (rewrite (Ha _ eq_refl); done).
    all: by rewrite (Ha _ eq_refl), Hout. }
  destruct out as [resp|e]; simpl.
  - done.
  - rewrite Hcatch. split; [done|].
    intros hc Hin. apply Hall.
    apply elem_of_app in Hin as [Hin|Hin]; [done|].
    by apply catch_events_in in Hin as [? _].
Qed.

(** X7. A middleware or the user handler is called only when extraction
    went through and every configured schema accepted its value: the route
    params resolved, the body was read or skipped without a throw, and no
    schema rejected. *)
Theorem middleware_and_handler_run_after_validation
    (JSON_stringify : JsValue -> string)
    (self : RouteHandlerBuilder) (handler0 : HandlerFunction)
    (request : Request) (context : option RouteContext) (ev : Event) :
  ev ∈ (run (handler JSON_stringify self handler0 request context)).2 ->
  stage ev = 4 \/ stage ev = 5 ->
  exists p b p' q' b',
    read_params context = Normal p
    /\ (read_body request []).1 = Normal b
    /\ accepts (paramsSchema (config self)) p p'
    /\ accepts (querySchema (config self)) (read_query request) q'
    /\ accepts (bodySchema (config self)) b b'.
Proof.
  destruct (handler_run JSON_stringify self handler0 request context)
    as (out & tr & Htry & ->).
  intros Hin Hstage.
  assert (ev ∈ tr) as Hin_tr.
  { destruct out as [r|e]; [done|]. simpl in Hin.
    apply elem_of_app in Hin as [Hin|Hin]; [done|].
    apply catch_events_in in Hin as [-> _]. simpl in Hstage. lia. }
  clear Hin.
  assert (exists p' q' b' tr0, validated self request context p' q' b' tr0)
    as (p' & q' & b' & tr0 & p & b & trb & Hp & Hb & HP & HQ & HB & _).
  { destruct Htry; try (by eexists _, _, _, _).
    all: trace_in Hin_tr; simpl in Hstage; try lia.
    all: match goal with s : Slot |- _ => destruct s; simpl in Hstage; lia end. }
  exists p, b, p', q', b'. rewrite Hb, !accepts_parse_slot. done.
Qed.

Lemma middleware_and_handler_run_after_validation_witness :
  exists p b p' q' b',
    read_params None = Normal p
    /\ (read_body (sample_request "POST" (Some "application/x-www-form-urlencoded")
                     [] (Throw syntax_error)) []).1 = Normal b
    /\ accepts None p p'
    /\ accepts None
         (read_query (sample_request "POST" (Some "application/x-www-form-urlencoded")
                        [] (Throw syntax_error))) q'
    /\ accepts (Some (required_string "field")) b b'.
Proof.
  apply (middleware_and_handler_run_after_validation sample_stringify
           (sample_route None None (Some (required_string "field")) [] None)
           body_handler
           (sample_request "POST" (Some "application/x-www-form-urlencoded") []
                           (Throw syntax_error))
           None
           (EvHandler {| ctx_params := JObject ∅; ctx_query := JObject ∅;
                         ctx_body := JObject {[ "field" := JString "test-field" ]};
                         ctx_data := ∅ |})).
  - vm_compute. constructor. constructor. constructor.
  - right. reflexivity.
Defined.

(** X8. Each schema is given the value as it was extracted: the params
    schema the resolved route params, the query schema the object of the
    query string, the body schema the body as it was read. No schema sees
    what another schema parsed. *)
Theorem schemas_validate_extracted_values
    (JSON_stringify : JsValue -> string)
    (self : RouteHandlerBuilder) (handler0 : HandlerFunction)
    (request : Request) (context : option RouteContext)
    (slot : Slot) (v : JsValue) :
  EvSafeParse slot v ∈ (run (handler JSON_stringify self handler0 request context)).2 ->
  is_Some (schema_of slot (config self))
  /\ match slot with
     | SlotParams => read_params context = Normal v
     | SlotQuery => v = read_query request
     | SlotBody => (read_body request []).1 = Normal v
     end.
Proof.
  destruct (handler_run JSON_stringify self handler0 request context)
    as (out & tr & Htry & ->).
  intros Hin.
  assert (EvSafeParse slot v ∈ tr) as Hin_tr.
  { destruct out as [r|e]; [done|]. simpl in Hin.
    apply elem_of_app in Hin as [Hin|Hin]; [done|].
    by apply catch_events_in in Hin as [? _]. }
  clear Hin.
  destruct Htry; open_validated; simplify_eq; trace_in Hin_tr.
  all: repeat match goal with
              | H : read_body _ _ = _ |- _ => rewrite H
              | H : parse_slot ?s _ = ParseFailure _ |- _ =>
                  destruct s eqn:?; [|discriminate H]; clear H
              end.
  all: simpl; eauto.
Qed.

Lemma schemas_validate_extracted_values_witness :
  (read_body (sample_request "POST" (Some "application/x-www-form-urlencoded")
                [] (Throw syntax_error)) []).1
  = Normal (JObject {[ "field" := JString "test-field" ]}).
Proof.
  exact (proj2 (schemas_validate_extracted_values sample_stringify
                  (sample_route None None (Some (required_string "field")) [] None)
                  body_handler
                  (sample_request "POST" (Some "application/x-www-form-urlencoded") []
                                  (Throw syntax_error))
                  None SlotBody (JObject {[ "field" := JString "test-field" ]})
                  ltac:(vm_compute; constructor; constructor))).
Defined.

Lemma try_run_body_throw_trace
    (JSON_stringify : JsValue -> string) self handler0 request context out tr e ev :
  try_run JSON_stringify self handler0 request context out tr ->
  (EvJson ∈ tr /\ json request = Throw e)
  \/ (EvFormData ∈ tr /\ formData request = Throw e) ->
  ev ∈ tr -> ev = EvJson \/ ev = EvFormData.
Proof.
  intros Htry Hsrc Hev.
  destruct Htry; open_validated; simplify_eq.
  2: trace_in Hev; auto.
  all: destruct Hsrc as [[Hin He]|[Hin He]]; trace_in Hin.
  all: try rewrite He in *; congruence.
Qed.

(** X9. When the body read throws, nothing else of the pipeline runs: no
    schema, no middleware and no user handler is called, whatever the
    schemas would say about params and query. The only call that can follow
    is the custom error handler's, and the answer is the one of the [catch]
    block for the thrown value. *)
Theorem body_read_failure_stops_the_run
    (JSON_stringify : JsValue -> string)
    (self : RouteHandlerBuilder) (handler0 : HandlerFunction)
    (request : Request) (context : option RouteContext) (e : Thrown) :
  let r := run (handler JSON_stringify self handler0 request context) in
  (EvJson ∈ r.2 /\ json request = Throw e)
  \/ (EvFormData ∈ r.2 /\ formData request = Throw e) ->
  (forall ev, ev ∈ r.2 ->
      ev = EvJson \/ ev = EvFormData \/ ev = EvHandleServerError e)
  /\ r.1 = Normal
             match e with
             | InternalRouteHandlerError message =>
                 {| resp_body := message; resp_status := 400; resp_headers := [] |}
             | OtherError _ =>
                 match handleServerError self with
                 | Some f => f e
                 | None =>
                     {| resp_body :=
                          JSON_stringify
                            (JObject {[ "message" := JString "Internal server error" ]});
                        resp_status := 500; resp_headers := [] |}
                 end
             end.
Proof.
  intros r Hsrc. subst r.
  destruct (handler_run JSON_stringify self handler0 request context)
    as (out & tr & Htry & Heq).
  rewrite Heq in *. clear Heq.
  assert (EvJson ∈ tr /\ json request = Throw e
          \/ EvFormData ∈ tr /\ formData request = Throw e) as Hsrc'.
  { destruct out as [r0|e0]; [done|]. simpl in Hsrc.
    destruct Hsrc as [[Hin He]|[Hin He]]; [left|right]; split; try done.
    all: apply elem_of_app in Hin as [Hin|Hin]; [done|].
    all: by apply catch_events_in in Hin as [? _]. }
  assert (out = Throw e) as -> by (by eapply try_run_body_read_in).
  simpl. split; [|by destruct e].
  intros ev Hin. apply elem_of_app in Hin as [Hin|Hin].
  - destruct (try_run_body_throw_trace _ _ _ _ _ _ _ _ _ Htry Hsrc' Hin); auto.
  - apply catch_events_in in Hin as [-> _]. auto.
Qed.

Lemma body_read_failure_stops_the_run_witness :
  (run (handler sample_stringify
          (sample_route (Some (required_string "id")) None None [mw_x1] None)
          echo_handler
          (sample_request "POST" (Some "application/json") [] (Throw syntax_error))
          None)).1
  = Normal {| resp_body :=
                sample_stringify
                  (JObject {[ "message" := JString "Internal server error" ]});
              resp_status := 500; resp_headers := [] |}.
Proof.
  refine (proj2 (body_read_failure_stops_the_run sample_stringify
                   (sample_route (Some (required_string "id")) None None [mw_x1] None)
                   echo_handler
                   (sample_request "POST" (Some "application/json") []
                                   (Throw syntax_error))
                   None syntax_error _)).
  left. split; [vm_compute; constructor|reflexivity].
Defined.

(** X10. When the promise of the route params rejects, the run ends before
    anything is called: the body is not read, no schema, middleware or user
    handler runs. The rejection is answered by the [catch] block like any
    other thrown value. *)
Theorem rejected_route_params_stop_the_run
    (JSON_stringify : JsValue -> string)
    (self : RouteHandlerBuilder) (handler0 : HandlerFunction)
    (request : Request) (e : Thrown) :
  let r := run (handler JSON_stringify self handler0 request
                  (Some {| route_params := Some (Throw e) |})) in
  r = match e, handleServerError self with
      | InternalRouteHandlerError message, _ =>
          (Normal {| resp_body := message; resp_status := 400;
                     resp_headers := [] |}, [])
      | OtherError _, Some f => (Normal (f e), [EvHandleServerError e])
      | OtherError _, None =>
          (Normal {| resp_body :=
                       JSON_stringify
                         (JObject {[ "message" := JString "Internal server error" ]});
                     resp_status := 500; resp_headers := [] |}, [])
      end.
Proof.
  intros r. subst r.
  destruct (handler_run JSON_stringify self handler0 request
              (Some {| route_params := Some (Throw e) |}))
    as (out & tr & Htry & ->).
  destruct Htry; open_validated; simplify_eq.
  match goal with H : read_params _ = Throw _ |- _ => injection H as <- end.
  unfold catch_events, catch_response, internal_server_error. simpl.
  destruct e; [done|]. by destruct (handleServerError self).
Qed.

(** X11. A user handler that throws an [InternalRouteHandlerError] is
    answered 400 with the error's message as the body, and the custom error
    handler, configured or not, is not called: the handler's call is the
    last call of the run. *)
Theorem internal_error_from_handler_is_answered_400
    (JSON_stringify : JsValue -> string)
    (self : RouteHandlerBuilder) (handler0 : HandlerFunction)
    (request : Request) (context : option RouteContext)
    (hc : HandlerContext) (message : string) :
  let r := run (handler JSON_stringify self handler0 request context) in
  EvHandler hc ∈ r.2 ->
  handler0 request hc = Throw (InternalRouteHandlerError message) ->
  r.1 = Normal {| resp_body := message; resp_status := 400; resp_headers := [] |}
  /\ exists tr0, r.2 = tr0 ++ [EvHandler hc]
                 /\ forall e, EvHandleServerError e ∉ tr0.
Proof.
  intros r Hin He. subst r.
  destruct (handler_run JSON_stringify self handler0 request context)
    as (out & tr & Htry & Heq).
  rewrite Heq in *. clear Heq.
  assert (EvHandler hc ∈ tr) as Hin_tr.
  { destruct out as [r0|e0]; [done|]. simpl in Hin.
    apply elem_of_app in Hin as [Hin|Hin]; [done|].
    by apply catch_events_in in Hin as [? _]. }
  destruct (try_run_handler_in _ _ _ _ _ _ _ _ Htry Hin_tr) as [[tr0 ->] ->].
  rewrite He. simpl. split; [done|].
  exists tr0. rewrite app_nil_r. split; [done|].
  intros e Hin_e.
  apply (try_run_no_error_handler _ _ _ _ _ _ _ e Htry).
  apply elem_of_app. by left.
Qed.

Lemma internal_error_from_handler_is_answered_400_witness :
  (run (handler sample_stringify
          (sample_route None None None [] (Some unavailable))
          (throwing_handler (InternalRouteHandlerError "teapot"))
          (sample_request "GET" None [] (Throw syntax_error)) None)).1
  = Normal {| resp_body := "teapot"; resp_status := 400; resp_headers := [] |}.
Proof.
  refine (proj1 (internal_error_from_handler_is_answered_400 sample_stringify
                   (sample_route None None None [] (Some unavailable))
                   (throwing_handler (InternalRouteHandlerError "teapot"))
                   (sample_request "GET" None [] (Throw syntax_error)) None
                   {| ctx_params := JObject ∅; ctx_query := JObject ∅;
                      ctx_body := JObject ∅; ctx_data := ∅ |}
                   "teapot" _ _)).
  - vm_compute. constructor.
  - reflexivity.
Defined.

Lemma mw_run_throw_last request mws c e evs :
  mw_run request mws c (Throw e) evs ->
  exists mw c', last evs = Some (EvMiddleware mw c') /\ mw request c' = Throw e.
Proof.
  remember (Throw e) as out eqn:Hout.
  induction 1 as [c|mw rest c r out evs Hmw Hrun IH|mw rest c e0 Hmw].
  - discriminate Hout.
  - destruct (IH Hout) as (mw' & c' & Hlast & Hthrow).
    exists mw', c'. split; [|done].
    destruct evs; [discriminate Hlast|]. by rewrite last_cons_cons.
  - injection Hout as ->. by exists mw, c.
Qed.

(** X12. Where a response comes from. Every run ends in a response, and the
    response has one of three origins. The user handler returned in the
    last call of the run: the response is its return value, wrapped if it is
    a plain value. Or the schema of a slot rejected in the last call of the
    run: the response is 400 with the body
    [{ message: "Invalid <slot>", errors: <issues> }] of that rejection. Or
    the promise of the route params, the body read, a middleware or the user
    handler threw, in the last call before the [catch] block: for an
    [InternalRouteHandlerError] the response is 400 with the error's message
    as the body, for any other value it is the custom error handler's
    response, or the default 500 where there is none. *)
Theorem response_origin
    (JSON_stringify : JsValue -> string)
    (self : RouteHandlerBuilder) (handler0 : HandlerFunction)
    (request : Request) (context : option RouteContext) :
  let r := run (handler JSON_stringify self handler0 request context) in
  exists resp,
    r.1 = Normal resp
    /\ ((exists hc result,
            last r.2 = Some (EvHandler hc)
            /\ handler0 request hc = Normal result
            /\ resp = to_response JSON_stringify result)
        \/ (exists slot schema v issues,
               last r.2 = Some (EvSafeParse slot v)
               /\ schema_of slot (config self) = Some schema
               /\ safeParse schema v = ParseFailure issues
               /\ resp_status resp = 400%Z
               /\ resp_body resp
                  = JSON_stringify
                      (JObject {[ "message" := JString (slot_message slot);
                                  "errors" := JArray issues ]}))
        \/ (exists e tr0,
               r.2 = tr0 ++ catch_events self e
               /\ (read_params context = Throw e /\ tr0 = []
                   \/ last tr0 = Some EvJson /\ json request = Throw e
                   \/ last tr0 = Some EvFormData /\ formData request = Throw e
                   \/ (exists mw c,
                          last tr0 = Some (EvMiddleware mw c)
                          /\ mw request c = Throw e)
                   \/ (exists hc,
                          last tr0 = Some (EvHandler hc)
                          /\ handler0 request hc = Throw e))
               /\ match e with
                  | InternalRouteHandlerError message =>
                      resp_status resp = 400%Z /\ resp_body resp = message
                  | OtherError _ =>
                      match handleServerError self with
                      | Some f => resp = f e
                      | None =>
                          resp_status resp = 500%Z
                          /\ resp_body resp
                             = JSON_stringify
                                 (JObject {[ "message" :=
                                               JString "Internal server error" ]})
                      end
                  end)).
Proof.
  intros r. subst r.
  destruct (handler_run JSON_stringify self handler0 request context)
    as (out & tr & Htry & ->).
  assert (forall e, match e with
                    | InternalRouteHandlerError message =>
                        resp_status (catch_response JSON_stringify self e) = 400%Z
                        /\ resp_body (catch_response JSON_stringify self e) = message
                    | OtherError _ =>
                        match handleServerError self with
                        | Some f => catch_response JSON_stringify self e = f e
                        | None =>
                            resp_status (catch_response JSON_stringify self e) = 500%Z
                            /\ resp_body (catch_response JSON_stringify self e)
                               = JSON_stringify
                                   (JObject {[ "message" :=
                                                 JString "Internal server error" ]})
                        end
                    end) as Hcatch.
  { intros [message|x]; simpl; [done|]. by destruct (handleServerError self). }
  destruct Htry as [e He|p e trb Hp Hb|p b trb issues Hp Hb HP
                    |p b trb p' issues Hp Hb HP HQ
                    |p b trb p' q' issues Hp Hb HP HQ HB
                    |p' q' b' tr e evs Hv Hmw
                    |p' q' b' tr data evs e Hv Hmw Hh
                    |p' q' b' tr data evs result Hv Hmw Hh]; simpl.
  - eexists. split; [done|]. right; right. exists e, []. split_and!; [done|auto|apply Hcatch].
  - eexists. split; [done|]. right; right. exists e, trb. split_and!; [done| |apply Hcatch].
    right. destruct (read_body_cases _ _ _ Hb) as [[-> ?]|[[-> Hj]|[-> Hf]]].
    + discriminate.
    + left. by split.
    + right; left. split; [done|].
      destruct (formData request); [discriminate Hf|congruence].
  - eexists. split; [done|]. right; left.
    destruct (paramsSchema (config self)) as [s|] eqn:Hs; [|discriminate HP].
    exists SlotParams, s, p, issues. rewrite app_nil_r, last_snoc. by split_and!.
  - eexists. split; [done|]. right; left.
    destruct (querySchema (config self)) as [s|] eqn:Hs; [|discriminate HQ].
    exists SlotQuery, s, (read_query request), issues.
    rewrite app_nil_r, !app_assoc, last_snoc. by split_and!.
  - eexists. split; [done|]. right; left.
    destruct (bodySchema (config self)) as [s|] eqn:Hs; [|discriminate HB].
    exists SlotBody, s, b, issues.
    rewrite app_nil_r, !app_assoc, last_snoc. by split_and!.
  - eexists. split; [done|]. right; right. exists e, (tr ++ evs).
    split_and!; [done| |apply Hcatch].
    destruct (mw_run_throw_last _ _ _ _ _ Hmw) as (mw & c & Hlast & Hthrow).
    do 3 right. left. exists mw, c. split; [|done].
    by rewrite last_app, Hlast.
  - eexists. split; [done|]. right; right. eexists e, _.
    split_and!; [done| |apply Hcatch].
    do 4 right. eexists. split; [|done]. by rewrite !app_assoc, last_snoc.
  - eexists. split; [done|]. left. eexists _, _. split_and!; [|done|done].
    by rewrite !app_assoc, last_snoc.
Qed.

(** X13. The custom error handler matters only when it is called: a run
    that does not call the configured handler is the same run, with the same
    response and the same calls, under any other error handler or none. *)
Theorem error_handler_matters_only_when_called
    (JSON_stringify : JsValue -> string)
    (self : RouteHandlerBuilder) (handler0 : HandlerFunction)
    (request : Request) (context : option RouteContext)
    (f : HandlerServerErrorFn) (other : option HandlerServerErrorFn) :
  handleServerError self = Some f ->
  (forall e, EvHandleServerError e
             ∉ (run (handler JSON_stringify self handler0 request context)).2) ->
  run (handler JSON_stringify
         {| config := config self; middlewares := middlewares self;
            handleServerError := other |}
         handler0 request context)
  = run (handler JSON_stringify self handler0 request context).
Proof.
  intros Hf Hnone.
  assert (handler_try JSON_stringify
            {| config := config self; middlewares := middlewares self;
               handleServerError := other |} handler0 request context
          = handler_try JSON_stringify self handler0 request context) as Htry_eq
    by reflexivity.
  unfold run, handler, try_catch in *. rewrite Htry_eq.
  destruct (handler_try JSON_stringify self handler0 request context [])
    as [[resp|e] tr]; [done|].
  rewrite !handler_catch_eq in *.
  destruct e as [message|x]; [done|].
  unfold catch_events in Hnone. simpl in Hnone. rewrite Hf in Hnone.
  destruct (Hnone (OtherError x)). apply elem_of_app. right. by left.
Qed.

Lemma error_handler_matters_only_when_called_witness :
  run (handler sample_stringify
         (sample_route None (Some (required_string "search")) None [] None)
         echo_handler
         (sample_request "GET" None [] (Throw syntax_error)) None)
  = run (handler sample_stringify
           (sample_route None (Some (required_string "search")) None []
                         (Some unavailable))
           echo_handler
           (sample_request "GET" None [] (Throw syntax_error)) None).
Proof.
  apply (error_handler_matters_only_when_called sample_stringify
           (sample_route None (Some (required_string "search")) None []
                         (Some unavailable))
           echo_handler
           (sample_request "GET" None [] (Throw syntax_error)) None
           unavailable None).
  - reflexivity.
  - intros e Hin. vm_compute in Hin.
    apply list_elem_of_singleton in Hin. discriminate Hin.
Defined.

(** X14. A route called without route params (no context, or a context
    without [params]) has the empty object for params: it is what a params
    schema is given, and the user handler receives it, or the schema's
    parsed output for it. *)
Theorem missing_route_params_are_empty
    (JSON_stringify : JsValue -> string)
    (self : RouteHandlerBuilder) (handler0 : HandlerFunction)
    (request : Request) (context : option RouteContext) :
  context = None \/ context = Some {| route_params := None |} ->
  let r := run (handler JSON_stringify self handler0 request context) in
  (forall v, EvSafeParse SlotParams v ∈ r.2 -> v = JObject ∅)
  /\ (forall hc, EvHandler hc ∈ r.2 ->
        accepts (paramsSchema (config self)) (JObject ∅) (ctx_params hc)).
Proof.
  intros Hctx r. subst r.
  assert (read_params context = Normal (JObject ∅)) as Hp
    by (by destruct Hctx as [-> | ->]).
  destruct (handler_run JSON_stringify self handler0 request context)
    as (out & tr & Htry & ->).
  split.
  - intros v Hin.
    destruct Htry; open_validated; unify_eqs; simpl in Hin; trace_in Hin; done.
  - intros hc Hin. apply accepts_parse_slot.
    destruct Htry; open_validated; unify_eqs; simpl in Hin; trace_in Hin; done.
Qed.

Lemma missing_route_params_are_empty_witness :
  accepts (Some (string_with_default "id" "0")) (JObject ∅)
          (JObject {[ "id" := JString "0" ]}).
Proof.
  refine (proj2 (missing_route_params_are_empty sample_stringify
                   (sample_route (Some (string_with_default "id" "0")) None None [] None)
                   echo_handler
                   (sample_request "GET" None [] (Throw syntax_error))
                   (Some {| route_params := None |})
                   (or_intror eq_refl))
                {| ctx_params := JObject {[ "id" := JString "0" ]};
                   ctx_query := JObject ∅; ctx_body := JObject ∅;
                   ctx_data := ∅ |} _).
  vm_compute. constructor. constructor.
Defined.

(** * The objects that the pipeline builds *)

(** [Object.fromEntries] keeps, for each key, the value of the last entry
    that has the key. *)
Lemma Object_fromEntries_lookup {A} (f : A -> string * JsValue) (es : list A) (k : string) :
  Object_fromEntries (map f es) !! k
  = (fun x => (f x).2) <$> last (filter (fun x => (f x).1 = k) es).
Proof.
  induction es as [|x es IH] using rev_ind; [done|].
  unfold Object_fromEntries in *.
  rewrite map_app, foldl_app, filter_app. simpl.
  rewrite filter_cons, filter_nil.
  destruct (decide ((f x).1 = k)) as [Hk|Hk].
  - rewrite last_snoc. simpl. rewrite <- Hk. apply lookup_insert_eq.
  - rewrite app_nil_r, lookup_insert_ne; done.
Qed.

(** X15. The query object has, for each key of the query string, the value
    of the key's last occurrence, as a string; a key that the query string
    does not have is absent. *)
Theorem query_object_lookup (request : Request) :
  exists m,
    read_query request = JObject m
    /\ forall k,
        m !! k = (fun kv => JString kv.2)
                   <$> last (filter (fun kv => kv.1 = k) (searchParams request)).
Proof.
  eexists. split; [reflexivity|].
  intros k.
  apply (Object_fromEntries_lookup (fun kv => (kv.1, JString kv.2))).
Qed.



Lemma merged_from_dom (c : JsObject) (frags : list JsObject) :
  dom c ⊆ dom (merged_from c frags).
Proof.
  revert c. induction frags as [|r frags IH]; intros c; [done|].
  unfold merged_from in *. simpl.
  trans (dom (spread c r)); [|apply IH].
  unfold spread. rewrite dom_union_L. apply union_subseteq_r.
Qed.

Lemma merged_from_dom_app (c : JsObject) (l1 l2 : list JsObject) :
  dom (merged_from c l1) ⊆ dom (merged_from c (l1 ++ l2)).
Proof.
  unfold merged_from. rewrite foldl_app. apply merged_from_dom.
Qed.

Lemma merged_from_take_mono (c : JsObject) (frags : list JsObject) (i j : nat) :
  i <= j ->
  dom (merged_from c (take i frags)) ⊆ dom (merged_from c (take j frags))
  /\ dom (merged_from c (take j frags)) ⊆ dom (merged_from c frags).
Proof.
  intros Hij. split.
  - rewrite <- (take_drop i (take j frags)).
    rewrite take_take, Nat.min_l by done.
    apply merged_from_dom_app.
  - rewrite <- (take_drop j frags) at 2. apply merged_from_dom_app.
Qed.

(** X17. For middleware that return the fragments [frags] at the merged
    contexts, and so leave the context object that they are handed as it
    is: the context of a later call has every key of the context of an
    earlier call, and the final data has the keys of them all. A later
    fragment can give a key another value; the merge of the loop does not
    remove a key. *)
Theorem middleware_context_only_grows
    (request : Request) (mws : list Middleware) (frags : list JsObject) :
  length frags = length mws ->
  (forall i mw r, mws !! i = Some mw -> frags !! i = Some r ->
      mw request (merged_from ∅ (take i frags)) = Normal r) ->
  let r := run (run_middlewares request mws ∅) in
  exists data,
    r.1 = Normal data
    /\ forall i j mwi ci mwj cj,
        i <= j ->
        r.2 !! i = Some (EvMiddleware mwi ci) ->
        r.2 !! j = Some (EvMiddleware mwj cj) ->
        dom ci ⊆ dom cj /\ dom cj ⊆ dom data.
Proof.
  intros Hlen Hfrags r. subst r. unfold run.
  rewrite (run_middlewares_fragments request mws frags ∅ []) by done.
  exists (merged_from ∅ frags). split; [done|].
  intros i j mwi ci mwj cj Hij Hi Hj. simpl in Hi, Hj.
  rewrite list_lookup_imap in Hi, Hj.
  destruct (mws !! i) as [mi|]; [|discriminate Hi].
  destruct (mws !! j) as [mj|]; [|discriminate Hj].
  simpl in Hi, Hj. injection Hi as <- <-. injection Hj as <- <-.
  by apply merged_from_take_mono.
Qed.

Lemma middleware_context_only_grows_witness :
  exists data,
    (run (run_middlewares (sample_request "GET" None [] (Throw syntax_error))
            [mw_x1; mw_x2_y3] ∅)).1 = Normal data
    /\ dom ({[ "x" := JNumber 1 ]} : JsObject) ⊆ dom data.
Proof.
  destruct (middleware_context_only_grows
              (sample_request "GET" None [] (Throw syntax_error))
              [mw_x1; mw_x2_y3]
              [ {[ "x" := JNumber 1 ]}; {[ "x" := JNumber 2; "y" := JNumber 3 ]} ])
    as (data & Hrun & Hgrow).
  - reflexivity.
  - intros [|[|i]] mw r Hmw Hr; simpl in Hmw, Hr; [| |discriminate Hmw].
    all: injection Hmw as <-; injection Hr as <-; reflexivity.
  - exists data. split; [exact Hrun|].
    exact (proj2 (Hgrow 1 1 mw_x2_y3 {[ "x" := JNumber 1 ]}
                    mw_x2_y3 {[ "x" := JNumber 1 ]}
                    (le_n 1) eq_refl eq_refl)).
Defined.



